(** * TelecomChurnAnalyzer: a shallow embedding of [telecom_churn_analyzer.py]

    The analyzer is a pandas script: an object with three fields
    ([raw_data], [df], [results]) whose methods load a table, clean it,
    derive a column, aggregate and write a report.  The embedding keeps
    that shape: a data frame is a list of typed columns and a list of
    rows, the methods are computations in a state-and-exception monad
    over the object's fields, the console and the files written.

    What stands for pandas and Python here:
    - a finite float is an exact rational, written in lowest terms
      ([Qred]) wherever the script computes one; the two infinities are
      the cells [CInf]; rounding and signed zeros are not modelled;
    - the two missing values are kept apart: [CNull] is NaN (what pandas
      puts where a record has no value, and what a float column holds),
      [CNone] is Python's [None] (a JSON null kept in an object column);
    - cells are compared as pandas' hash tables compare them, with
      Python's [==]: the numbers 1, 1.0 and [True] are one value
      ([py_key]), and NaN is equal to NaN;
    - a nested dict or list is carried by the text [str()] gives for it:
      the program only tests whether a cell is a dict, converts it with
      [str], or hashes it (which raises);
    - the row index is not modelled, rows are addressed by position, and
      column names are looked up at their first position (names coming
      from JSON keys are unique);
    - a dict is an association list whose keys are pairwise unequal, in
      the order in which pandas' [to_dict] builds it: [value_counts] by
      decreasing count (equal counts in order of first appearance),
      [groupby] by increasing key;
    - pandas is taken at version 2: [astype(str)] applies [str] to every
      cell, missing ones included, [mean] refuses text, [drop_duplicates]
      returns a frame without rows or without columns as it is and, on a
      frame with a single column, deduplicates that column as a series. *)

From Stdlib Require Import ZArith QArith String Ascii DecimalString.
From stdpp Require Import base decidable option list strings sorting.

Local Open Scope string_scope.

(** ** Cells, columns and frames *)

Inductive dtype := DObject | DFloat | DInt | DBool.

Inductive cell :=
  | CNull
  | CStr (s : string)
  | CFloat (q : Q)
  | CInt (z : Z)
  | CBool (b : bool)
  | CDict (repr : string)
  | CList (repr : string)
  | CNone
  | CInf (negative : bool).

#[global] Instance dtype_eq_dec : EqDecision dtype.
Proof. solve_decision. Defined.

#[global] Instance Q_eq_dec : EqDecision Q.
Proof. solve_decision. Defined.

(** Equality of cells as terms.  How pandas compares two cells is
    [py_key] below. *)
#[global] Instance cell_eq_dec : EqDecision cell.
Proof. solve_decision. Defined.

Abbreviation row := (list cell).

Record DataFrame := mkDataFrame {
  columns : list (string * dtype);
  rows : list row
}.

#[global] Instance DataFrame_eq_dec : EqDecision DataFrame.
Proof. solve_decision. Defined.

(** [len(df)] *)
Definition len (t : DataFrame) : nat := length (rows t).

(** [df.columns] as names, in declaration order *)
Definition names (t : DataFrame) : list string := (columns t).*1.

(** Every row has one cell per column. *)
Definition well_formed (t : DataFrame) : Prop :=
  Forall (λ r : row, length r = length (columns t)) (rows t).

#[global] Instance well_formed_dec t : Decision (well_formed t).
Proof. unfold well_formed. apply _. Defined.

(** [pd.isna(x)], [isinstance(x, dict)], and whether [hash(x)] succeeds *)
Definition isnull (c : cell) : bool :=
  match c with CNull | CNone => true | _ => false end.

Definition is_dict (c : cell) : bool :=
  match c with CDict _ => true | _ => false end.

Definition hashable (c : cell) : bool :=
  match c with CDict _ | CList _ => false | _ => true end.

(** The value of a cell that is a finite number ([True] is 1). *)
Definition cell_num (c : cell) : option Q :=
  match c with
  | CFloat q => Some q
  | CInt z => Some (inject_Z z)
  | CBool b => Some (if b then 1 else 0)%Q
  | _ => None
  end.

(** A cell arithmetic accepts: a finite number or an infinity. *)
Definition is_number (c : cell) : bool :=
  match c with CFloat _ | CInt _ | CBool _ | CInf _ => true | _ => false end.

(** What a hash table of Python objects keeps of a cell: [1 == 1.0 == True]
    and [hash(1) == hash(1.0) == hash(True)], so a finite number stands
    for its value; every other cell stands for itself. *)
Definition py_key (c : cell) : cell :=
  match cell_num c with
  | Some x => CFloat (Qred x)
  | None => c
  end.

(** What [factorize] keeps of a cell: as [py_key], but every missing value
    gets the same code. *)
Definition na_key (c : cell) : cell :=
  if isnull c then CNull else py_key c.

(** The cell at column position [j] of a row, and the series [df[col]]. *)
Definition cell_at (j : nat) (r : row) : cell := default CNull (r !! j).

Definition series (j : nat) (t : DataFrame) : list cell := cell_at j <$> rows t.

(** Position of the first column carrying a name: [col in df.columns] holds
    exactly when this is [Some _]. *)
Definition col_index (name : string) (t : DataFrame) : option nat :=
  fst <$> list_find (λ c : string * dtype, c.1 = name) (columns t).

(** Apply [f] to every cell of column [j]. *)
Definition map_series (f : cell → cell) (j : nat) (t : DataFrame) : DataFrame :=
  {| columns := columns t; rows := alter f j <$> rows t |}.

Definition set_dtype (j : nat) (dt : dtype) (t : DataFrame) : DataFrame :=
  {| columns := alter (λ c, (c.1, dt)) j (columns t); rows := rows t |}.

(** Keep the first occurrence of every value, in order: the scan with a
    table of the keys already seen that [drop_duplicates(keep="first")],
    [value_counts] and [groupby] all perform.  Two values are the same
    when they have the same key. *)
Fixpoint keep_first_by {A K} `{EqDecision K} (key : A → K) (seen : list K)
    (l : list A) : list A :=
  match l with
  | [] => []
  | x :: l' =>
      if bool_decide (key x ∈ seen) then keep_first_by key seen l'
      else x :: keep_first_by key (key x :: seen) l'
  end.

(** A stable insertion sort: [le x y] tells that [x] may stay in front of
    [y]. *)
Fixpoint insert_by {A} (le : A → A → bool) (x : A) (l : list A) : list A :=
  match l with
  | [] => [x]
  | y :: l' => if le x y then x :: l else y :: insert_by le x l'
  end.

Definition sort_by {A} (le : A → A → bool) (l : list A) : list A :=
  foldr (insert_by le) [] l.

(** ** Exceptions, console output, documents *)

Inductive exn :=
  | ValueError
  | KeyError
  | TypeError
  | AttributeError
  | ZeroDivisionError
  | OtherError (name : string).

#[global] Instance exn_eq_dec : EqDecision exn.
Proof. solve_decision. Defined.

Inductive message :=
  | OkLoadedUrl (n : nat)
  | OkLoadedFile (n : nat)
  | ErrorLoading (e : exn)
  | InfoDictColumn (col : string)
  | OkDuplicates (removed remaining : nat)
  | OkClean
  | DebugColumns (cols : list string)
  | OkDailyCreated
  | OkChargeColumn (col : string)
  | WarnNoChargeColumn
  | OkAnalysis
  | OkReport (path : string).

Record Results := mkResults {
  churn_rate : list (cell * Q);
  avg_charges : list (cell * cell);
  total_customers : nat
}.

(** The fields the HTML template interpolates. *)
Record document := mkDocument {
  doc_total : nat;
  doc_churn_rate : list (cell * Q);
  doc_avg_charges : list (cell * cell);
  doc_image : string
}.

(** The object's fields together with what it prints and writes. *)
Record state := mkState {
  raw_data : option DataFrame;
  df : option DataFrame;
  results : option Results;
  stdout : list message;
  files : list (string * document)
}.

(** [TelecomChurnAnalyzer()] in a world with the given files. *)
Definition init (fs : list (string * document)) : state :=
  {| raw_data := None; df := None; results := None; stdout := []; files := fs |}.

(** ** The monad of methods: state and exceptions *)

Definition M (A : Type) : Type := state → (exn + A) * state.

Definition ret {A} (a : A) : M A := λ s, (inr a, s).

Definition raise {A} (e : exn) : M A := λ s, (inl e, s).

Definition bind {A B} (m : M A) (f : A → M B) : M B :=
  λ s, match m s with
       | (inl e, s') => (inl e, s')
       | (inr a, s') => f a s'
       end.

Definition lift {A} (r : exn + A) : M A :=
  match r with inl e => raise e | inr a => ret a end.

Definition add_stdout (ms : list message) (s : state) : state :=
  {| raw_data := raw_data s; df := df s; results := results s;
     stdout := (stdout s ++ ms)%list; files := files s |}.

Definition print (m : message) : M unit := λ s, (inr tt, add_stdout [m] s).

Definition set_raw_data (v : option DataFrame) : M unit :=
  λ s, (inr tt, {| raw_data := v; df := df s; results := results s;
                   stdout := stdout s; files := files s |}).

Definition set_df (v : DataFrame) : M unit :=
  λ s, (inr tt, {| raw_data := raw_data s; df := Some v; results := results s;
                   stdout := stdout s; files := files s |}).

Definition set_results (v : Results) : M unit :=
  λ s, (inr tt, {| raw_data := raw_data s; df := df s; results := Some v;
                   stdout := stdout s; files := files s |}).

Definition write_file (path : string) (d : document) : M unit :=
  λ s, (inr tt, {| raw_data := raw_data s; df := df s; results := results s;
                   stdout := stdout s; files := (path, d) :: files s |}).

(** [try: body except Exception as e: handler(e)] *)
Definition try_except {A} (body : M A) (handler : exn → M A) : M A :=
  λ s, match body s with
       | (inl e, s') => handler e s'
       | (inr a, s') => (inr a, s')
       end.

#[global] Instance M_ret : MRet M := @ret.
#[global] Instance M_bind : MBind M := λ A B f m, bind m f.

Definition get_raw_data : M (option DataFrame) := λ s, (inr (raw_data s), s).
Definition get_df : M (option DataFrame) := λ s, (inr (df s), s).
Definition get_results : M (option Results) := λ s, (inr (results s), s).

Definition print_all (ms : list message) : M unit :=
  foldl (λ acc m, acc;; print m) (mret tt) ms.

(** Run a fallible function over a list, stopping at the first exception. *)
Fixpoint traverse {A B} (f : A → exn + B) (l : list A) : exn + list B :=
  match l with
  | [] => inr []
  | x :: l' =>
      match f x with
      | inl e => inl e
      | inr y => match traverse f l' with
                 | inl e => inl e
                 | inr ys => inr (y :: ys)
                 end
      end
  end.

(** ** Strings: [str.lower] and the substring test [sub in s]

    [lower] maps the ASCII capitals only.  No character outside ASCII
    lowers to one of the letters of "charge" or "cargos", so the test of
    [analyze_data] is the same as with Python's full [str.lower]. *)

Definition lower_ascii (a : ascii) : ascii :=
  let n := nat_of_ascii a in
  if (65 <=? n)%nat && (n <=? 90)%nat then ascii_of_nat (n + 32) else a.

Fixpoint lower (s : string) : string :=
  match s with
  | EmptyString => EmptyString
  | String a s' => String (lower_ascii a) (lower s')
  end.

Fixpoint contains (sub s : string) : bool :=
  String.prefix sub s ||
  match s with
  | EmptyString => false
  | String _ s' => contains sub s'
  end.

(** The test of the loop in [analyze_data]. *)
Definition is_charge_name (col : string) : bool :=
  contains "charge" (lower col) || contains "cargos" (lower col).

(** [if url:] on an argument that is [None] or a string *)
Definition truthy (a : option string) : option string :=
  match a with
  | Some s => if decide (s = "") then None else Some s
  | None => None
  end.

(** ** pandas operations used by the analyzer *)

(** What [DataFrame.duplicated] compares of a row.  A frame with one
    column is handed to [Series.duplicated], whose hash table holds the
    cells themselves ([None] and NaN differ); with more columns each
    column is factorized first, and all its missing values get one
    code. *)
Definition row_key (ncols : nat) (r : row) : row :=
  (if decide (ncols = 1%nat) then py_key else na_key) <$> r.

(** [df.drop_duplicates()]: nothing happens to an empty frame (no column
    or no row); otherwise every row is hashed, which raises on a list or
    a dict, and the first row of each group of equal rows is kept. *)
Definition drop_duplicates (t : DataFrame) : exn + DataFrame :=
  if bool_decide (columns t = [] ∨ rows t = []) then inr t
  else if forallb (forallb hashable) (rows t)
       then inr {| columns := columns t;
                   rows := keep_first_by (row_key (length (columns t))) []
                             (rows t) |}
       else inl TypeError.

Definition dtype_at (j : nat) (t : DataFrame) : option dtype :=
  snd <$> columns t !! j.

(** [df.select_dtypes(include=...).columns], as column positions *)
Definition has_dtype (include : list dtype) (t : DataFrame) (j : nat) : bool :=
  match dtype_at j t with
  | Some dt => bool_decide (dt ∈ include)
  | None => false
  end.

Definition select_dtypes (include : list dtype) (t : DataFrame) : list nat :=
  filter (λ j, has_dtype include t j = true) (seq 0 (length (columns t))).

(** [df[col] = df[col].fillna(v)] *)
Definition fillna (v : cell) (j : nat) (t : DataFrame) : DataFrame :=
  map_series (λ c, if isnull c then v else c) j t.

(** The number 0 stored in a column of the given dtype. *)
Definition zero_of (dt : option dtype) : cell :=
  match dt with Some DInt => CInt 0 | _ => CFloat 0 end.

(** [s.value_counts()]: missing values are dropped and the rest is hashed;
    the first cell of each group of equal cells is the key, its count the
    size of the group; the result is sorted by decreasing count, equal
    counts staying in order of first appearance. *)
Definition dropna (cs : list cell) : list cell :=
  filter (λ c, isnull c = false) cs.

Definition count (v : cell) (cs : list cell) : nat :=
  length (filter (λ c, py_key c = py_key v) cs).

Definition value_counts (cs : list cell) : exn + list (cell * nat) :=
  let present := dropna cs in
  if forallb hashable present
  then inr (sort_by (λ p q : cell * nat, (q.2 <=? p.2)%nat)
              ((λ v, (v, count v present)) <$> keep_first_by py_key [] present))
  else inl TypeError.

(** The float [n / total]. *)
Definition proportion (n total : nat) : Q :=
  Qred (inject_Z (Z.of_nat n) / inject_Z (Z.of_nat total)).

(** [s.value_counts(normalize=True)]: each count over the sum of the counts *)
Definition value_counts_normalized (cs : list cell) : exn + list (cell * Q) :=
  match value_counts cs with
  | inl e => inl e
  | inr counts =>
      let total := length (dropna cs) in
      inr ((λ p : cell * nat, (p.1, proportion p.2 total)) <$> counts)
  end.

(** [s.mean()] of one group, as pandas 2 computes it: missing values are
    skipped, a cell that is not a number is refused, the mean of nothing
    is NaN; with infinities the sum is the infinity, or NaN when both
    signs occur. *)
Definition Qsum (l : list Q) : Q := foldr Qplus 0%Q l.

Definition mean (cs : list cell) : exn + cell :=
  let present := dropna cs in
  if forallb is_number present then
    inr match present with
        | [] => CNull
        | _ =>
            match bool_decide (CInf false ∈ present),
                  bool_decide (CInf true ∈ present) with
            | true, true => CNull
            | true, false => CInf false
            | false, true => CInf true
            | false, false =>
                CFloat (Qred (Qsum (omap cell_num present)
                              / inject_Z (Z.of_nat (length present))))
            end
        end
  else inl TypeError.

(** The order in which [groupby] sorts its keys: numbers by value, in
    front of text; text by code point. *)
Definition cell_leb (a b : cell) : bool :=
  match a, b with
  | CStr s, CStr s' => String.leb s s'
  | CStr _, _ => false
  | _, CStr _ => true
  | CInf negative, _ => negative || bool_decide (b = CInf false)
  | _, CInf negative => negb negative
  | _, _ =>
      match cell_num a, cell_num b with
      | Some x, Some y => Qle_bool x y
      | _, _ => true
      end
  end.

(** [df.groupby(key)[col].mean()]: rows with a missing key are left out,
    the groups come in the order of their keys. *)
Definition groupby_mean (keys vals : list cell) : exn + list (cell * cell) :=
  let pairs := filter (λ p : cell * cell, isnull p.1 = false) (zip keys vals) in
  if forallb hashable pairs.*1
  then traverse (λ k, match mean (filter (λ p : cell * cell,
                                            py_key p.1 = py_key k) pairs).*2 with
                      | inl e => inl e
                      | inr m => inr (k, m)
                      end)
                (sort_by cell_leb (keep_first_by py_key [] pairs.*1))
  else inl TypeError.

(** The float [x / days]; a float divided by zero is an infinity, or NaN
    for [0 / 0]. *)
Definition float_div (x days : Q) : cell :=
  if Qeq_bool days 0 then
    match (x ?= 0)%Q with
    | Gt => CInf false
    | Lt => CInf true
    | Eq => CNull
    end
  else CFloat (Qred (x / days)).

Definition inf_div (negative : bool) (days : Q) : cell :=
  CInf (if Qle_bool 0 days then negative else negb negative).

(** [x / days] on one cell of a numeric column, as numpy divides floats:
    nothing raises. *)
Definition numpy_truediv (days : Q) (c : cell) : exn + cell :=
  match c with
  | CNull | CNone => inr CNull
  | CStr _ | CDict _ | CList _ => inl TypeError
  | CInf negative => inr (inf_div negative days)
  | CFloat q => inr (float_div q days)
  | CInt z => inr (float_div (inject_Z z) days)
  | CBool b => inr (float_div (if b then 1 else 0) days)
  end.

(** [x / days] on one cell of an object column, with Python's operator:
    [None] and text are refused, and a division by zero raises. *)
Definition py_truediv (days : Q) (c : cell) : exn + cell :=
  match c with
  | CNone | CStr _ | CDict _ | CList _ => inl TypeError
  | _ =>
      if Qeq_bool days 0 then inl ZeroDivisionError
      else match c with
           | CInf negative => inr (inf_div negative days)
           | _ => match cell_num c with
                  | Some x => inr (CFloat (Qred (x / days)))
                  | None => inr CNull
                  end
           end
  end.

(** [series / days].  A numeric column is divided by numpy.  An object
    column is divided cell by cell; when that raises [TypeError], pandas
    tries again on the cells that are not missing and puts NaN for the
    others; any other exception is passed on. *)
Definition truediv (dt : option dtype) (days : Q) (cs : list cell)
    : exn + list cell :=
  match dt with
  | Some DObject =>
      match traverse (py_truediv days) cs with
      | inl TypeError =>
          traverse (λ c, if isnull c then inr CNull else py_truediv days c) cs
      | r => r
      end
  | _ => traverse (numpy_truediv days) cs
  end.

(** [df[name] = values]: an existing column of that name is replaced at
    its position, otherwise the column is appended. *)
Definition set_column (name : string) (dt : dtype) (cs : list cell)
    (t : DataFrame) : DataFrame :=
  match col_index name t with
  | Some k => {| columns := <[k := (name, dt)]> (columns t);
                 rows := zip_with (λ (r : row) c, <[k := c]> r) (rows t) cs |}
  | None => {| columns := (columns t ++ [(name, dt)])%list;
               rows := zip_with (λ (r : row) c, (r ++ [c])%list) (rows t) cs |}
  end.

(** ** The methods of [TelecomChurnAnalyzer] *)

Section TelecomChurnAnalyzer.

(** What the script takes from outside:
    - [float_str]: the text Python's [str] gives for a float;
    - [get_json]: [pd.json_normalize(requests.get(url).json())] after
      [raise_for_status()], a frame or the exception raised on the way;
    - [read_json]: [pd.read_json(file_path)];
    - [savefig]: matplotlib drawing the bar chart of the given counts,
      as the base64 text of the PNG. *)
Variable float_str : Q → string.
Variable get_json : string → exn + DataFrame.
Variable read_json : string → exn + DataFrame.
Variable savefig : list (cell * nat) → exn + string.

(** [str(x)] *)
Definition py_str (c : cell) : string :=
  match c with
  | CNull => "nan"
  | CStr s => s
  | CFloat q => float_str q
  | CInt z => NilZero.string_of_int (Z.to_int z)
  | CBool b => if b then "True" else "False"
  | CDict repr => repr
  | CList repr => repr
  | CNone => "None"
  | CInf negative => if negative then "-inf" else "inf"
  end.

(** *** 1. load_data *)

Definition load_data (url file_path : option string) : M unit :=
  try_except
    (match truthy url with
     | Some u =>
         raw ← lift (get_json u);
         set_raw_data (Some raw);;
         print (OkLoadedUrl (len raw))
     | None =>
         match truthy file_path with
         | Some p =>
             raw ← lift (read_json p);
             set_raw_data (Some raw);;
             print (OkLoadedFile (len raw))
         | None => raise ValueError
         end
     end)
    (λ e, print (ErrorLoading e);; set_raw_data None).

(** *** 2. clean_data *)

(** [df[col] = df[col].astype(str)] *)
Definition astype_str (j : nat) (t : DataFrame) : DataFrame :=
  set_dtype j DObject (map_series (λ c, CStr (py_str c)) j t).

(** One turn of the loop over [df.columns] that converts the columns
    holding a dict. *)
Definition stringify_step (acc : DataFrame * list message) (j : nat)
    : DataFrame * list message :=
  if existsb is_dict (series j acc.1)
  then (astype_str j acc.1,
        (acc.2 ++ [InfoDictColumn (default "" (names acc.1 !! j))])%list)
  else acc.

Definition stringify_nested (t : DataFrame) : DataFrame * list message :=
  foldl stringify_step (t, []) (seq 0 (length (columns t))).

(** The two loops that fill the missing values. *)
Definition fill_text (t : DataFrame) : DataFrame :=
  foldl (λ d j, fillna (CStr "Desconocido") j d) t (select_dtypes [DObject] t).

Definition fill_numeric (t : DataFrame) : DataFrame :=
  foldl (λ d j, fillna (zero_of (dtype_at j t)) j d) t
        (select_dtypes [DFloat; DInt] t).

Definition clean_data : M unit :=
  raw ← get_raw_data;
  match raw with
  | None => raise AttributeError
  | Some raw =>
      let nested := stringify_nested raw in
      print_all nested.2;;
      let before := len nested.1 in
      d ← lift (drop_duplicates nested.1);
      let after := len d in
      print (OkDuplicates (before - after) after);;
      set_df (fill_numeric (fill_text d));;
      print OkClean
  end.

(** *** 3. create_daily_column *)

Definition create_daily_column (days_per_month : Q) : M unit :=
  d ← get_df;
  match d with
  | None => raise AttributeError
  | Some t =>
      match col_index "MonthlyCharges" t with
      | Some j =>
          daily ← lift (truediv (dtype_at j t) days_per_month (series j t));
          let dt := match dtype_at j t with
                    | Some DObject => DObject
                    | _ => DFloat
                    end in
          set_df (set_column "DailyCharges" dt daily t);;
          print OkDailyCreated
      | None => mret tt
      end
  end.

(** *** 4. analyze_data *)

(** The loop looking for the charge column: the first name that passes
    the test, or [None]. *)
Definition find_charge_col (cols : list string) : option string :=
  snd <$> list_find (λ col, is_charge_name col = true) cols.

Definition analyze_data : M Results :=
  d ← get_df;
  match d with
  | None => raise AttributeError
  | Some t =>
      match col_index "Churn" t with
      | None => raise KeyError
      | Some churn =>
          rate ← lift (value_counts_normalized (series churn t));
          avg ← match find_charge_col (names t) with
                | Some charge_col =>
                    avg ← lift (groupby_mean
                                  (series churn t)
                                  (series (default 0%nat (col_index charge_col t)) t));
                    print (OkChargeColumn charge_col);;
                    mret avg
                | None =>
                    print WarnNoChargeColumn;;
                    mret []
                end;
          let res := {| churn_rate := rate; avg_charges := avg;
                        total_customers := len t |} in
          set_results res;;
          print OkAnalysis;;
          mret res
      end
  end.

(** *** 5. plot_churn and 6. generate_report *)

Definition plot_churn : M string :=
  d ← get_df;
  match d with
  | None => raise TypeError
  | Some t =>
      match col_index "Churn" t with
      | None => raise KeyError
      | Some churn =>
          counts ← lift (value_counts (series churn t));
          lift (savefig counts)
      end
  end.

Definition generate_report (output_html : string) : M unit :=
  churn_img ← plot_churn;
  res ← get_results;
  match res with
  | None => raise KeyError
  | Some r =>
      write_file output_html
        {| doc_total := total_customers r; doc_churn_rate := churn_rate r;
           doc_avg_charges := avg_charges r; doc_image := churn_img |};;
      print (OkReport output_html)
  end.

(** *** 7. run_and_report *)

Definition run_and_report (url file_path : option string)
    (output_html : string) (days_per_month : Q) : M unit :=
  load_data url file_path;;
  clean_data;;
  d ← get_df;
  match d with
  | None => raise AttributeError
  | Some t => print (DebugColumns (names t))
  end;;
  create_daily_column days_per_month;;
  analyze_data;;
  generate_report output_html.

End TelecomChurnAnalyzer.

(** ** Auxiliary definitions for the statements *)

(** Column [j] is converted to text when it holds a dict. *)
Definition nested (t : DataFrame) (j : nat) : bool :=
  bool_decide (j < length (columns t))%nat && existsb is_dict (series j t).

(** What the two filling loops write into a cell of a column of dtype [dt]. *)
Definition filled_cell (dt : option dtype) (c : cell) : cell :=
  if isnull c then
    match dt with
    | Some DObject => CStr "Desconocido"
    | Some DFloat => CFloat 0
    | Some DInt => CInt 0
    | _ => c
    end
  else c.

(** The positions of the values that [keep_first_by] keeps. *)
Fixpoint kept_positions {A K} `{EqDecision K} (key : A → K) (seen : list K)
    (l : list A) : list nat :=
  match l with
  | [] => []
  | x :: l' =>
      if bool_decide (key x ∈ seen) then S <$> kept_positions key seen l'
      else 0%nat :: (S <$> kept_positions key (key x :: seen) l')
  end.

(** Python's [a == b] on two cells: the same cell, or two finite numbers
    of the same value. *)
Definition py_equal (a b : cell) : Prop :=
  a = b ∨ ∃ x y, cell_num a = Some x ∧ cell_num b = Some y ∧ (x == y)%Q.

(** Two cells that [drop_duplicates] takes for the same, in a frame of
    [ncols] columns: equal cells and, when there is more than one column,
    any two missing values. *)
Definition same_value (ncols : nat) (a b : cell) : Prop :=
  py_equal a b ∨ (ncols ≠ 1%nat ∧ isnull a = true ∧ isnull b = true).

(** Full-row equality: the same cells, column by column. *)
Definition same_row (ncols : nat) (r r' : row) : Prop :=
  Forall2 (same_value ncols) r r'.

(** No two rows of the table are equal. *)
Definition distinct_rows (t : DataFrame) : Prop :=
  ∀ i i' (r r' : row),
    rows t !! i = Some r → rows t !! i' = Some r' →
    same_row (length (columns t)) r r' → i = i'.

(** An analyzer that has just loaded [raw]. *)
Definition loaded (raw : DataFrame) : state :=
  {| raw_data := Some raw; df := None; results := None; stdout := []; files := [] |}.

(** An analyzer whose working frame is [t]. *)
Definition holding (t : DataFrame) : state :=
  {| raw_data := None; df := Some t; results := None; stdout := []; files := [] |}.

(** [after] holds exactly the rows of [before] that no earlier row is
    equal to, in the order of [before]; [same] tells which rows are
    equal. *)
Definition first_occurrences_kept (same : row → row → Prop)
    (before after : list row) : Prop :=
  ∃ kept : list nat,
    StronglySorted lt kept
    ∧ (∀ i, i ∈ kept ↔
            ∃ r, before !! i = Some r
                 ∧ ∀ i' r', (i' < i)%nat → before !! i' = Some r' → ¬ same r' r)
    ∧ after = omap (λ i, before !! i) kept.

(** Every row of [out] comes from a row of [raw] whose present cells it
    keeps (outside the columns converted to text) and whose missing cells,
    in the columns selected by [in_scope], are replaced: by [sentinel] in a
    text column and by 0 in a numeric one. *)
Definition nulls_replaced (sentinel : string) (in_scope : nat → bool)
    (raw out : DataFrame) : Prop :=
  ∀ r' : row, r' ∈ rows out →
    ∃ r : row, r ∈ rows raw ∧
      ∀ j name dt c,
        columns raw !! j = Some (name, dt) → r !! j = Some c →
        (isnull c = false → nested raw j = false → r' !! j = Some c)
        ∧ (isnull c = true → in_scope j = true →
             r' !! j = Some match dt with
                            | DObject => CStr sentinel
                            | DFloat => CFloat 0
                            | DInt => CInt 0
                            | DBool => c
                            end).

(** Every row of [out] comes from a row of [raw], cell by cell: in a
    column that held a dict the cell is the text [str] gives for the raw
    cell, missing or not; elsewhere a missing cell is replaced, by
    [sentinel] in a text column and by 0 in a numeric one, and a present
    cell is kept. *)
Definition cells_cleaned (str : cell → string) (sentinel : string)
    (raw out : DataFrame) : Prop :=
  ∀ r' : row, r' ∈ rows out →
    ∃ r : row, r ∈ rows raw ∧ length r' = length r ∧
      ∀ j name dt c,
        columns raw !! j = Some (name, dt) → r !! j = Some c →
        (nested raw j = true → r' !! j = Some (CStr (str c)))
        ∧ (nested raw j = false → isnull c = true →
             r' !! j = Some match dt with
                            | DObject => CStr sentinel
                            | DFloat => CFloat 0
                            | DInt => CInt 0
                            | DBool => c
                            end)
        ∧ (nested raw j = false → isnull c = false → r' !! j = Some c).

(** The column at position [j] has the same name, dtype and cells in [t']
    as in [t]. *)
Definition column_kept (j : nat) (t t' : DataFrame) : Prop :=
  columns t' !! j = columns t !! j ∧ series j t' = series j t.

(** The call ended normally and left a column "DailyCharges" holding, row
    by row, the monthly charge over [days]; a missing charge stays
    missing. *)
Definition sets_daily_charges (days : Q) (t : DataFrame)
    (res : (exn + unit) * state) : Prop :=
  ∀ j, col_index "MonthlyCharges" t = Some j →
    ∃ t' k,
      res.1 = inr tt ∧ df res.2 = Some t'
      ∧ col_index "DailyCharges" t' = Some k
      ∧ len t' = len t
      ∧ ∀ i (r r' : row), rows t !! i = Some r → rows t' !! i = Some r' →
          match cell_num (cell_at j r) with
          | Some x => cell_at k r' = CFloat (Qred (x / days))
          | None => isnull (cell_at j r) = true → cell_at k r' = CNull
          end.

(** A cell a series can be divided on: a number or a missing value. *)
Definition divisible (c : cell) : Prop :=
  isnull c = true ∨ is_Some (cell_num c).

(** The quotient of such a cell by a divisor that is not zero. *)
Definition quotient (days : Q) (c : cell) : cell :=
  match cell_num c with
  | Some x => CFloat (Qred (x / days))
  | None => CNull
  end.

(** [churn_rate] gives every label of the "Churn" column its count over
    the number of rows, has no other key, and its values sum to 1. *)
Definition churn_rate_by_row_count (t : DataFrame) (res : Results) : Prop :=
  ∀ churn, col_index "Churn" t = Some churn →
    (∀ v, v ∈ series churn t → isnull v = false →
          ∃ k, py_equal k v
               ∧ (k, proportion (count v (series churn t)) (len t)) ∈ churn_rate res)
    ∧ (∀ v, v ∈ (churn_rate res).*1 → v ∈ series churn t)
    ∧ (Qsum (churn_rate res).*2 == 1)%Q.

(** [sub] occurs in [s]. *)
Definition substring_of (sub s : string) : Prop :=
  ∃ pre post, s = String.append pre (String.append sub post).

(** [w] spells the lower-case word [word] letter by letter, each letter
    in either case: a character of [w] is the letter itself or its
    capital, the character "A" to "Z" whose code is 32 less. *)
Fixpoint any_case (word w : string) : Prop :=
  match word, w with
  | EmptyString, EmptyString => True
  | String a word', String b w' =>
      (b = a ∨ ((65 ≤ nat_of_ascii b ≤ 90)%nat
                ∧ (nat_of_ascii b + 32)%nat = nat_of_ascii a))
      ∧ any_case word' w'
  | _, _ => False
  end.

(** The name holds "charge" or "cargos", whatever the case of the
    letters. *)
Definition names_charge (col : string) : Prop :=
  ∃ w, substring_of w col ∧ (any_case "charge" w ∨ any_case "cargos" w).


(** What the body of the [try] of [load_data] gets from outside: the frame
    fetched, or the exception raised on the way. *)
Definition load_outcome (get_json read_json : string → exn + DataFrame)
    (url file_path : option string) : exn + DataFrame :=
  match truthy url with
  | Some u => get_json u
  | None =>
      match truthy file_path with
      | Some p => read_json p
      | None => inl ValueError
      end
  end.

(** Where [df[name] = ...] puts the column. *)
Definition target (name : string) (t : DataFrame) : nat :=
  default (length (columns t)) (col_index name t).



(** Cleaning the cleaned table gives the cleaned table. *)
Definition idempotent_on (clean : M unit) (raw : DataFrame) : Prop :=
  ∀ s s' out s2 s2' out2,
    raw_data s = Some raw → clean s = (inr tt, s') → df s' = Some out →
    raw_data s2 = Some out → clean s2 = (inr tt, s2') → df s2' = Some out2 →
    out2 = out.

(** Every column of [t] is kept in [t'], and no row is added or lost. *)
Definition all_columns_kept (t t' : DataFrame) : Prop :=
  len t' = len t ∧ ∀ j, (j < length (columns t))%nat → column_kept j t t'.

(** ** A concrete world and sample tables

    The methods are run below on small tables.  [show_float] stands in for
    Python's [str] on floats (no sample holds a float in a column that is
    converted to text); [web] serves one URL, [disk] one file, and
    [draw] always returns the same picture. *)

Definition show_float (q : Q) : string :=
  String.append (NilZero.string_of_int (Z.to_int (Qnum q)))
    (String.append "/" (NilZero.string_of_uint (Pos.to_uint (Qden q)))).

(** The scenario of the specification: three customers, the third a
    duplicate of the first. *)
Definition customers : DataFrame :=
  {| columns := [("Churn", DObject); ("MonthlyCharges", DFloat)];
     rows := [[CStr "Yes"; CFloat 70]; [CStr "No"; CFloat 50];
              [CStr "Yes"; CFloat 70]] |}.

(** No "Churn" column and no charge column. *)
Definition no_churn : DataFrame :=
  {| columns := [("customerID", DObject); ("tenure", DInt)];
     rows := [[CStr "0002-ORFBO"; CInt 9]; [CStr "0003-MKNFE"; CInt 4]] |}.

(** A "Churn" column but no charge column. *)
Definition no_charges : DataFrame :=
  {| columns := [("Churn", DObject); ("tenure", DInt)];
     rows := [[CStr "No"; CInt 9]; [CStr "Yes"; CInt 4]] |}.

(** A charge of 0 and a missing charge for the same label. *)
Definition zero_and_missing : DataFrame :=
  {| columns := [("Churn", DObject); ("MonthlyCharges", DFloat)];
     rows := [[CStr "Yes"; CFloat 0]; [CStr "Yes"; CNull]] |}.

Definition zero_and_missing_cleaned : DataFrame :=
  {| columns := [("Churn", DObject); ("MonthlyCharges", DFloat)];
     rows := [[CStr "Yes"; CFloat 0]; [CStr "Yes"; CFloat 0]] |}.

(** A text column with a missing value. *)
Definition missing_gender : DataFrame :=
  {| columns := [("gender", DObject)]; rows := [[CNull]] |}.

(** A column of nested objects in which one record has no value (NaN)
    and another a JSON null ([None]). *)
Definition nested_account : DataFrame :=
  {| columns := [("account", DObject); ("gender", DObject)];
     rows := [[CDict "{'Contract': 'One year'}"; CStr "Female"];
              [CNull; CStr "Male"];
              [CNone; CStr "Male"]] |}.

(** Two records without any key: [[{}, {}]]. *)
Definition two_empty_records : DataFrame :=
  {| columns := []; rows := [[]; []] |}.

(** Monthly charges loaded as text. *)
Definition text_charges : DataFrame :=
  {| columns := [("Churn", DObject); ("MonthlyCharges", DObject)];
     rows := [[CStr "Yes"; CStr "70.0"]] |}.

(** A table that already has a "DailyCharges" column. *)
Definition with_daily : DataFrame :=
  {| columns := [("MonthlyCharges", DFloat); ("DailyCharges", DFloat)];
     rows := [[CFloat 30; CFloat 5]] |}.

(** A missing label, and a "Churn" column without any row. *)
Definition missing_label : DataFrame :=
  {| columns := [("Churn", DObject)]; rows := [[CStr "Yes"]; [CNull]] |}.

Definition no_rows : DataFrame :=
  {| columns := [("Churn", DObject)]; rows := [] |}.

Definition web (url : string) : exn + DataFrame :=
  if decide (url = "https://example.org/customers.json") then inr customers
  else inl (OtherError "HTTPError").

Definition disk (path : string) : exn + DataFrame :=
  if decide (path = "no_churn.json") then inr no_churn
  else inl (OtherError "FileNotFoundError").

Definition draw (counts : list (cell * nat)) : exn + string :=
  inr "iVBORw0KGgo=".

(** 30.42 *)
Definition default_days : Q := 1521 # 50.

Definition customers_cleaned : DataFrame :=
  {| columns := [("Churn", DObject); ("MonthlyCharges", DFloat)];
     rows := [[CStr "Yes"; CFloat 70]; [CStr "No"; CFloat 50]] |}.

Definition customers_results : Results :=
  {| churn_rate := [(CStr "Yes", 1 # 2); (CStr "No", 1 # 2)];
     avg_charges := [(CStr "No", CFloat 50); (CStr "Yes", CFloat 70)];
     total_customers := 2 |}.

Definition missing_gender_cleaned : DataFrame :=
  {| columns := [("gender", DObject)]; rows := [[CStr "Desconocido"]] |}.

Definition nested_account_cleaned : DataFrame :=
  {| columns := [("account", DObject); ("gender", DObject)];
     rows := [[CStr "{'Contract': 'One year'}"; CStr "Female"];
              [CStr "nan"; CStr "Male"];
              [CStr "None"; CStr "Male"]] |}.

Definition with_daily_after : DataFrame :=
  {| columns := [("MonthlyCharges", DFloat); ("DailyCharges", DFloat)];
     rows := [[CFloat 30; CFloat (500 # 507)]] |}.

(** Labels that are equal numbers of different types: the records
    [[{"Churn": 1}, {"Churn": 1.0}, {"Churn": "x"}, {"Churn": true}]]. *)
Definition mixed_labels : DataFrame :=
  {| columns := [("Churn", DObject)];
     rows := [[CInt 1]; [CFloat 1]; [CStr "x"]; [CBool true]] |}.

Definition mixed_labels_cleaned : DataFrame :=
  {| columns := [("Churn", DObject)]; rows := [[CInt 1]; [CStr "x"]] |}.

(** Two rows that differ only by a missing value which the filling makes
    equal to the other row's text, the numbers being equal. *)
Definition mixed_plans : DataFrame :=
  {| columns := [("lines", DObject); ("plan", DObject)];
     rows := [[CInt 1; CNull]; [CFloat 1; CStr "Desconocido"];
              [CStr "x"; CStr "y"]] |}.

Definition mixed_plans_cleaned : DataFrame :=
  {| columns := [("lines", DObject); ("plan", DObject)];
     rows := [[CInt 1; CStr "Desconocido"]; [CFloat 1; CStr "Desconocido"];
              [CStr "x"; CStr "y"]] |}.

Definition mixed_plans_cleaned_twice : DataFrame :=
  {| columns := [("lines", DObject); ("plan", DObject)];
     rows := [[CInt 1; CStr "Desconocido"]; [CStr "x"; CStr "y"]] |}.


(** Monthly charges in an object column: numbers, then text. *)
Definition number_then_text : DataFrame :=
  {| columns := [("Churn", DObject); ("MonthlyCharges", DObject)];
     rows := [[CStr "Yes"; CInt 70]; [CStr "No"; CStr "x"]] |}.

Definition mixed_labels_results : Results :=
  {| churn_rate := [(CInt 1, 3 # 4); (CStr "x", 1 # 4)];
     avg_charges := [];
     total_customers := 4 |}.

(** A column of lists, which [pd.read_json] keeps as they are. *)
Definition tagged : DataFrame :=
  {| columns := [("customerID", DObject); ("tags", DObject)];
     rows := [[CStr "0002-ORFBO"; CList "['fiber', 'tv']"]] |}.

(** * Properties *)

Local Open Scope nat_scope.
Local Open Scope list_scope.

(** Settle a decidable, closed goal by evaluating its decision procedure. *)
Ltac by_decision :=
  match goal with |- ?P => exact (bool_decide_unpack P I) end.

(** ** Keeping first occurrences *)

Section keep_first.
Context {A K : Type} `{EqDecision K} (key : A → K).
Implicit Types (x : A) (l : list A) (seen : list K).

Lemma elem_of_keep_first_by seen l x :
  x ∈ keep_first_by key seen l → x ∈ l ∧ key x ∉ seen.
Proof.
  revert seen. induction l as [|y l IH]; intros seen; simpl.
  - by intros ?%elem_of_nil.
  - case_bool_decide as Hy.
    + intros [? ?]%IH. split; [by right|done].
    + intros [->|[? Hs]%IH]%elem_of_cons; [split; [left|done]|].
      split; [by right|]. rewrite elem_of_cons in Hs. tauto.
Qed.

(** Every value that is not seen yet is represented by a kept one. *)
Lemma keep_first_by_represents seen l x :
  x ∈ l → key x ∉ seen →
  ∃ y, y ∈ keep_first_by key seen l ∧ key y = key x.
Proof.
  revert seen. induction l as [|y l IH]; intros seen; simpl.
  - by intros ?%elem_of_nil.
  - intros [->|Hx]%elem_of_cons Hs.
    + rewrite bool_decide_eq_false_2 by done. exists y. split; [left|done].
    + case_bool_decide as Hy; [by apply IH|].
      destruct (decide (key x = key y)) as [Heq|Hne].
      * exists y. split; [left|done].
      * destruct (IH (key y :: seen) Hx) as (z & Hz & Hkz).
        { rewrite elem_of_cons. tauto. }
        exists z. split; [by right|done].
Qed.

Lemma NoDup_keep_first_by seen l : NoDup (key <$> keep_first_by key seen l).
Proof.
  revert seen. induction l as [|y l IH]; intros seen; simpl.
  - constructor.
  - case_bool_decide; [apply IH|]. csimpl. constructor; [|apply IH].
    intros (z & Hkz & Hz)%list_elem_of_fmap.
    apply elem_of_keep_first_by in Hz as [_ Hz]. apply Hz. rewrite Hkz. left.
Qed.

Lemma keep_first_by_sublist seen l : keep_first_by key seen l `sublist_of` l.
Proof.
  revert seen. induction l as [|y l IH]; intros seen; simpl; [done|].
  case_bool_decide; [by apply sublist_cons|by apply sublist_skip].
Qed.

Lemma keep_first_by_NoDup seen l :
  NoDup (key <$> l) → (∀ x, x ∈ l → key x ∉ seen) → keep_first_by key seen l = l.
Proof.
  revert seen. induction l as [|y l IH]; intros seen Hnd Hs; simpl; [done|].
  csimpl in Hnd. apply NoDup_cons in Hnd as [Hy Hnd].
  rewrite bool_decide_eq_false_2 by (apply Hs; left).
  f_equal. apply IH; [done|]. intros x Hx. rewrite elem_of_cons.
  intros [Heq|?]; [|by apply (Hs x); [right|]].
  apply Hy. rewrite <- Heq. apply list_elem_of_fmap. by exists x.
Qed.

Lemma omap_lookup_S y l (js : list nat) :
  omap (λ i, (y :: l) !! i) (S <$> js) = omap (λ i, l !! i) js.
Proof. induction js as [|j js IH]; csimpl; [done|]. by rewrite IH. Qed.

Lemma keep_first_by_positions seen l :
  keep_first_by key seen l = omap (λ i, l !! i) (kept_positions key seen l).
Proof.
  revert seen. induction l as [|y l IH]; intros seen; simpl; [done|].
  case_bool_decide; csimpl; rewrite omap_lookup_S, <- IH; done.
Qed.

Lemma kept_positions_sorted seen l :
  StronglySorted lt (kept_positions key seen l).
Proof.
  revert seen. induction l as [|y l IH]; intros seen; simpl; [constructor|].
  assert (∀ s, StronglySorted lt (S <$> kept_positions key s l)) as HS.
  { intros s. apply (StronglySorted_fmap S lt lt); [|apply IH].
    intros ???; lia. }
  case_bool_decide; [apply HS|]. constructor; [apply HS|].
  apply Forall_fmap, Forall_true. intros; simpl; lia.
Qed.

Lemma elem_of_kept_positions seen l i :
  i ∈ kept_positions key seen l ↔
  ∃ x, l !! i = Some x ∧ (key x ∉ seen)
       ∧ (∀ i' x', i' < i → l !! i' = Some x' → key x' ≠ key x).
Proof.
  revert seen i. induction l as [|y l IH]; intros seen i; simpl.
  - rewrite elem_of_nil. split; [done|]. by intros (x & ? & _).
  - assert (∀ s, i ∈ (S <$> kept_positions key s l) ↔
      ∃ i0, i = S i0 ∧ (∃ x, l !! i0 = Some x ∧ (key x ∉ s) ∧
              (∀ i' x', i' < i0 → l !! i' = Some x' → key x' ≠ key x))) as HS.
    { intros s. rewrite list_elem_of_fmap. split.
      - intros (i0 & -> & Hi0). exists i0. split; [done|]. by apply IH.
      - intros (i0 & -> & Hi0). exists i0. split; [done|]. by apply IH. }
    case_bool_decide as Hy.
    + rewrite HS. split.
      * intros (i0 & -> & x & Hx & Hs & Hfirst). exists x. simpl.
        split; [done|]. split; [done|]. intros [|i'] x' Hi'; simpl.
        -- intros [= <-] Heq. apply Hs. by rewrite <- Heq.
        -- apply Hfirst. lia.
      * intros (x & Hx & Hs & Hfirst). destruct i as [|i0]; simpl in Hx.
        -- injection Hx as ->. done.
        -- exists i0. split; [done|]. exists x. split; [done|]. split; [done|].
           intros i' x' Hi'. apply (Hfirst (S i')). lia.
    + rewrite elem_of_cons, HS. split.
      * intros [->|(i0 & -> & x & Hx & Hs & Hfirst)].
        -- exists y. split; [done|]. split; [done|]. intros; lia.
        -- exists x. simpl. split; [done|]. rewrite elem_of_cons in Hs.
           split; [tauto|]. intros [|i'] x' Hi'; simpl.
           ++ intros [= <-] Heq. apply Hs. by left.
           ++ apply Hfirst. lia.
      * intros (x & Hx & Hs & Hfirst). destruct i as [|i0]; [by left|right].
        simpl in Hx. exists i0. split; [done|]. exists x. split; [done|]. split.
        -- rewrite elem_of_cons. intros [Heq|?]; [|done].
           apply (Hfirst 0 y); [lia|done|done].
        -- intros i' x' Hi'. apply (Hfirst (S i')). lia.
Qed.

End keep_first.

(** ** Sorting *)

Lemma insert_by_Permutation {A} (le : A → A → bool) x (l : list A) :
  insert_by le x l ≡ₚ x :: l.
Proof.
  induction l as [|y l IH]; simpl; [done|].
  destruct (le x y); [done|]. rewrite IH. apply Permutation_swap.
Qed.

Lemma sort_by_Permutation {A} (le : A → A → bool) (l : list A) :
  sort_by le l ≡ₚ l.
Proof.
  induction l as [|x l IH]; simpl; [done|].
  fold (sort_by le l). by rewrite insert_by_Permutation, IH.
Qed.

(** ** Equal cells and equal rows *)

Lemma py_key_num c x : cell_num c = Some x → py_key c = CFloat (Qred x).
Proof. intros H. unfold py_key. by rewrite H. Qed.

Lemma py_key_other c : cell_num c = None → py_key c = c.
Proof. intros H. unfold py_key. by rewrite H. Qed.

(** Two cells have the same key exactly when Python finds them equal. *)
Lemma py_key_eq a b : py_key a = py_key b ↔ py_equal a b.
Proof.
  unfold py_equal. split.
  - destruct (cell_num a) as [x|] eqn:Ha, (cell_num b) as [y|] eqn:Hb.
    + rewrite (py_key_num _ _ Ha), (py_key_num _ _ Hb). intros [= Heq].
      right. exists x, y. split; [done|]. split; [done|].
      rewrite <- (Qred_correct x), <- (Qred_correct y). by rewrite Heq.
    + rewrite (py_key_num _ _ Ha), (py_key_other _ Hb). intros <-. done.
    + rewrite (py_key_other _ Ha), (py_key_num _ _ Hb). intros ->. done.
    + rewrite (py_key_other _ Ha), (py_key_other _ Hb). by left.
  - intros [->|(x & y & Ha & Hb & Heq)]; [done|].
    rewrite (py_key_num _ _ Ha), (py_key_num _ _ Hb). f_equal.
    by apply Qred_complete.
Qed.

Lemma py_key_isnull c : isnull (py_key c) = isnull c.
Proof. by destruct c. Qed.

Lemma na_key_eq a b :
  na_key a = na_key b ↔ py_equal a b ∨ (isnull a = true ∧ isnull b = true).
Proof.
  unfold na_key. rewrite <- py_key_eq.
  destruct (isnull a) eqn:Ha, (isnull b) eqn:Hb.
  - split; [by right|done].
  - split.
    + intros Heq. apply (f_equal isnull) in Heq. rewrite py_key_isnull in Heq.
      simpl in Heq. congruence.
    + intros [Heq|[_ ?]]; [|done]. apply (f_equal isnull) in Heq.
      rewrite !py_key_isnull in Heq. congruence.
  - split.
    + intros Heq. apply (f_equal isnull) in Heq. rewrite py_key_isnull in Heq.
      simpl in Heq. congruence.
    + intros [Heq|[? _]]; [|done]. apply (f_equal isnull) in Heq.
      rewrite !py_key_isnull in Heq. congruence.
  - split; [by left|]. by intros [?|[? _]].
Qed.

(** Two rows have the same key exactly when they are equal column by
    column. *)
Lemma row_key_eq n (r r' : row) : row_key n r = row_key n r' ↔ same_row n r r'.
Proof.
  unfold row_key, same_row. revert r'.
  induction r as [|a r IH]; intros [|b r']; csimpl.
  - split; [constructor|done].
  - split; [done|]. intros H. inversion H.
  - split; [done|]. intros H. inversion H.
  - split.
    + intros [= Hab Hr]. constructor; [|by apply IH].
      unfold same_value. destruct (decide (n = 1)).
      * left. by apply py_key_eq.
      * apply na_key_eq in Hab as [?|?]; [by left|by right].
    + intros H. apply Forall2_cons in H as [Hab Hr]. f_equal; [|by apply IH].
      unfold same_value in Hab. destruct (decide (n = 1)).
      * apply py_key_eq. destruct Hab as [?|[? _]]; done.
      * apply na_key_eq. destruct Hab as [?|(_ & ? & ?)]; [by left|by right].
Qed.

Lemma distinct_rows_NoDup t :
  distinct_rows t ↔ NoDup (row_key (length (columns t)) <$> rows t).
Proof.
  rewrite NoDup_alt. unfold distinct_rows. split.
  - intros H i i' k Hi Hi'. rewrite list_lookup_fmap in Hi, Hi'.
    destruct (rows t !! i) as [r|] eqn:Hr; [|done].
    destruct (rows t !! i') as [r'|] eqn:Hr'; [|done].
    simpl in Hi, Hi'. apply (H i i' r r'); [done..|].
    apply row_key_eq. congruence.
  - intros H i i' r r' Hr Hr' Hsame. apply row_key_eq in Hsame.
    apply (H i i' (row_key (length (columns t)) r));
      rewrite list_lookup_fmap; [by rewrite Hr|by rewrite Hr', Hsame].
Qed.


(** ** Columns processed one at a time *)

Lemma map_series_columns f j t : columns (map_series f j t) = columns t.
Proof. reflexivity. Qed.

Lemma imap_id_cells (r : row) : imap (λ _ c, c) r = r.
Proof.
  apply list_eq; intros i. rewrite list_lookup_imap. destruct (r !! i); reflexivity.
Qed.

(** A loop that rewrites the columns [js], each with its own function, is
    one pass over every row. *)
Lemma foldl_map_series (f : nat → cell → cell) (js : list nat) (t : DataFrame) :
  NoDup js →
  foldl (λ d j, map_series (f j) j d) t js =
  {| columns := columns t;
     rows := imap (λ j c, if bool_decide (j ∈ js) then f j c else c) <$> rows t |}.
Proof.
  intros Hnd. revert t. induction Hnd as [|j js Hj Hnd IH]; intros t; simpl.
  - destruct t as [cols rs]; simpl. f_equal.
    rewrite <- (list_fmap_id rs) at 1. apply list_fmap_ext; intros _ r _.
    simpl. symmetry. apply imap_id_cells.
  - rewrite IH. simpl. f_equal. rewrite <- list_fmap_compose.
    apply list_fmap_ext; intros _ r _. simpl.
    apply list_eq; intros i. rewrite !list_lookup_imap.
    destruct (decide (i = j)) as [->|Hne].
    + rewrite list_lookup_alter_eq. destruct (r !! j) as [c|]; simpl; [|done].
      rewrite bool_decide_eq_false_2 by done.
      rewrite bool_decide_eq_true_2 by left. done.
    + rewrite list_lookup_alter_ne by done.
      destruct (r !! i) as [c|]; simpl; [|done]. f_equal.
      destruct (decide (i ∈ js)).
      * rewrite !bool_decide_eq_true_2 by (done || by right). done.
      * rewrite !bool_decide_eq_false_2
          by (done || by rewrite elem_of_cons; intros [?|?]). done.
Qed.

(** ** The charge column *)

Lemma prefix_spec (s1 s2 : string) :
  String.prefix s1 s2 = true ↔ ∃ post, s2 = String.append s1 post.
Proof.
  revert s2. induction s1 as [|a s1 IH]; intros [|b s2]; simpl.
  - split; [|done]. intros _. by exists EmptyString.
  - split; [|done]. intros _. by exists (String b s2).
  - split; [done|]. by intros (post & ?).
  - destruct (ascii_dec a b) as [->|Hne].
    + rewrite IH. split.
      * intros (post & ->). by exists post.
      * intros (post & [= ->]). by exists post.
    + split; [done|]. intros (post & [= -> _]). done.
Qed.

Lemma contains_spec (sub s : string) :
  contains sub s = true ↔ substring_of sub s.
Proof.
  unfold substring_of. induction s as [|a s IH].
  - change (contains sub EmptyString)
      with (String.prefix sub EmptyString || false).
    rewrite orb_false_r, prefix_spec. split.
    + intros (post & ->). by exists EmptyString, post.
    + intros ([|b pre] & post & Heq); [by exists post|done].
  - change (contains sub (String a s))
      with (String.prefix sub (String a s) || contains sub s).
    rewrite orb_true_iff, prefix_spec, IH. split.
    + intros [(post & ->)|(pre & post & ->)].
      * by exists EmptyString, post.
      * by exists (String a pre), post.
    + intros ([|b pre] & post & Heq).
      * left. by exists post.
      * right. injection Heq as -> ->. by exists pre, post.
Qed.

Lemma lower_ascii_spec (a b : ascii) :
  lower_ascii b = a ↔
  (b = a ∧ ¬ (65 ≤ nat_of_ascii b ≤ 90))
  ∨ ((65 ≤ nat_of_ascii b ≤ 90) ∧ nat_of_ascii b + 32 = nat_of_ascii a).
Proof.
  unfold lower_ascii.
  destruct (65 <=? nat_of_ascii b) eqn:H1; simpl;
    [destruct (nat_of_ascii b <=? 90) eqn:H2; simpl|].
  - apply Nat.leb_le in H1, H2. split.
    + intros <-. right. split; [lia|].
      rewrite nat_ascii_embedding; [done|lia].
    + intros [[_ ?]|[_ Heq]]; [lia|].
      rewrite Heq. apply ascii_nat_embedding.
  - apply Nat.leb_gt in H2. split; [intros ->; left; split; [done|lia]|].
    intros [[? _]|[? _]]; [done|lia].
  - apply Nat.leb_gt in H1. split; [intros ->; left; split; [done|lia]|].
    intros [[? _]|[? _]]; [done|lia].
Qed.

(** A word in lower case is spelt by [w], in whatever case, exactly when
    [w] lowers to it. *)
Lemma any_case_lower (word w : string) :
  lower word = word → (any_case word w ↔ lower w = word).
Proof.
  revert w. induction word as [|a word IH]; intros [|b w] Hword; simpl; try done.
  injection Hword as Ha Hword. rewrite (IH w Hword).
  apply lower_ascii_spec in Ha as [[_ Ha]|[Ha Heq]]; [|lia].
  split.
  - intros [[->|[Hb Heq]] ->]; f_equal.
    + apply lower_ascii_spec. by left.
    + apply lower_ascii_spec. by right.
  - intros [= Hb ->]. split; [|done].
    apply lower_ascii_spec in Hb as [[-> _]|?]; [by left|by right].
Qed.

Lemma lower_app (s1 s2 : string) :
  lower (String.append s1 s2) = String.append (lower s1) (lower s2).
Proof. induction s1 as [|a s1 IH]; simpl; [done|]. by rewrite IH. Qed.

Lemma lower_split (s a b : string) :
  lower s = String.append a b →
  ∃ s1 s2, s = String.append s1 s2 ∧ lower s1 = a ∧ lower s2 = b.
Proof.
  revert s. induction a as [|c a IH]; intros s; simpl.
  - intros Hs. by exists EmptyString, s.
  - destruct s as [|d s]; simpl; [done|]. intros [= Hd Hs].
    destruct (IH s Hs) as (s1 & s2 & -> & H1 & H2).
    exists (String d s1), s2. simpl. by rewrite Hd, H1.
Qed.

(** A name holds a lower-case word in some case exactly when the lowered
    name holds the word. *)
Lemma substring_any_case (word col : string) :
  lower word = word →
  (∃ w, substring_of w col ∧ any_case word w) ↔ substring_of word (lower col).
Proof.
  intros Hword. unfold substring_of. split.
  - intros (w & (pre & post & ->) & Hw%(any_case_lower _ _ Hword)).
    exists (lower pre), (lower post). by rewrite !lower_app, Hw.
  - intros (pre' & post' & Heq).
    apply lower_split in Heq as (pre & rest & -> & Hpre & Hrest).
    apply lower_split in Hrest as (w & post & -> & Hw & Hpost).
    exists w. split; [by exists pre, post|]. by apply any_case_lower.
Qed.

Lemma is_charge_name_spec col : is_charge_name col = true ↔ names_charge col.
Proof.
  unfold is_charge_name, names_charge.
  rewrite orb_true_iff, !contains_spec.
  rewrite <- !substring_any_case by reflexivity. split.
  - intros [(w & ? & ?)|(w & ? & ?)]; exists w; tauto.
  - intros (w & ? & [?|?]); [left|right]; by exists w.
Qed.

Lemma find_charge_col_Some cols c :
  find_charge_col cols = Some c ↔
  ∃ i, cols !! i = Some c ∧ names_charge c
       ∧ ∀ i' c', cols !! i' = Some c' → i' < i → ¬ names_charge c'.
Proof.
  unfold find_charge_col. rewrite fmap_Some. split.
  - intros ([i c'] & Hf & ->). apply list_find_Some in Hf as (Hi & Hc & Hfirst).
    exists i. split; [done|]. split; [by apply is_charge_name_spec|].
    intros i' c'' Hi' Hlt. rewrite <- is_charge_name_spec. by apply (Hfirst i').
  - intros (i & Hi & Hc & Hfirst). exists (i, c). split; [|done].
    apply list_find_Some. split; [done|]. split; [by apply is_charge_name_spec|].
    intros i' c' Hi' Hlt. rewrite is_charge_name_spec. by apply (Hfirst i').
Qed.

Lemma find_charge_col_None cols :
  find_charge_col cols = None ↔ ∀ c, c ∈ cols → ¬ names_charge c.
Proof.
  unfold find_charge_col. rewrite fmap_None, list_find_None, Forall_forall.
  split; intros H c Hc; specialize (H c Hc); by rewrite is_charge_name_spec in *.
Qed.

Section Properties.

Variable float_str : Q → string.
Variable get_json : string → exn + DataFrame.
Variable read_json : string → exn + DataFrame.
Variable savefig : list (cell * nat) → exn + string.


(** ** The cleaner, row by row *)

Lemma cell_at_imap (f : nat → cell → cell) (r : row) j :
  f j CNull = CNull ∨ j < length r →
  cell_at j (imap f r) = f j (cell_at j r).
Proof.
  unfold cell_at. rewrite list_lookup_imap.
  destruct (r !! j) as [c|] eqn:E; simpl; [done|].
  intros [H|H]; [done|]. apply lookup_ge_None in E. lia.
Qed.

Lemma stringify_prefix (raw : DataFrame) (n : nat) :
  n ≤ length (columns raw) →
  (foldl (stringify_step float_str) (raw, []) (seq 0 n)).1 =
  {| columns := imap (λ j c, if bool_decide (j < n) && existsb is_dict (series j raw)
                             then (c.1, DObject) else c) (columns raw);
     rows := imap (λ j c, if bool_decide (j < n) && existsb is_dict (series j raw)
                          then CStr (py_str float_str c) else c) <$> rows raw |}.
Proof.
  induction n as [|n IH]; intros Hn.
  - simpl. destruct raw as [cols rs]; simpl. f_equal.
    + apply list_eq; intros i. rewrite list_lookup_imap.
      destruct (cols !! i); reflexivity.
    + rewrite <- (list_fmap_id rs) at 1. apply list_fmap_ext; intros _ r _.
      simpl. symmetry. apply imap_id_cells.
  - rewrite seq_S, foldl_snoc. simpl.
    unfold stringify_step at 1. rewrite IH by lia.
    set (F := {| columns := _; rows := _ |}).
    assert (series n F = series n raw) as ->.
    { unfold series, F; simpl. rewrite <- list_fmap_compose.
      apply list_fmap_ext; intros _ r _. simpl.
      unfold cell_at. rewrite list_lookup_imap.
      destruct (r !! n) as [c|]; simpl; [|done].
      rewrite bool_decide_eq_false_2 by lia. done. }
    destruct (existsb is_dict (series n raw)) eqn:E; simpl.
    + unfold astype_str, set_dtype, map_series, F; simpl. f_equal.
      * apply list_eq; intros i. rewrite list_lookup_alter, !list_lookup_imap.
        case_decide as Hi.
        -- subst i. destruct (columns raw !! n) as [c|]; simpl; [|done].
           rewrite bool_decide_eq_false_2 by lia. simpl.
           rewrite bool_decide_eq_true_2 by lia. simpl. by rewrite E.
        -- destruct (columns raw !! i) as [c|]; simpl; [|done].
           f_equal. destruct (decide (i < n)).
           ++ rewrite !bool_decide_eq_true_2 by lia. done.
           ++ rewrite !bool_decide_eq_false_2 by lia. done.
      * rewrite <- list_fmap_compose. apply list_fmap_ext; intros _ r _. simpl.
        apply list_eq; intros i. rewrite list_lookup_alter, !list_lookup_imap.
        case_decide as Hi.
        -- subst i. destruct (r !! n) as [c|]; simpl; [|done].
           rewrite bool_decide_eq_false_2 by lia. simpl.
           rewrite bool_decide_eq_true_2 by lia. simpl. by rewrite E.
        -- destruct (r !! i) as [c|]; simpl; [|done].
           f_equal. destruct (decide (i < n)).
           ++ rewrite !bool_decide_eq_true_2 by lia. done.
           ++ rewrite !bool_decide_eq_false_2 by lia. done.
    + rewrite IH by lia. f_equal.
      * apply imap_ext; intros i c _. destruct (decide (i = n)) as [->|].
        -- rewrite E, !andb_false_r. done.
        -- destruct (decide (i < n)).
           ++ rewrite !bool_decide_eq_true_2 by lia. done.
           ++ rewrite !bool_decide_eq_false_2 by lia. done.
      * apply list_fmap_ext; intros _ r _.
        apply imap_ext; intros i c _. destruct (decide (i = n)) as [->|].
        -- rewrite E, !andb_false_r. done.
        -- destruct (decide (i < n)).
           ++ rewrite !bool_decide_eq_true_2 by lia. done.
           ++ rewrite !bool_decide_eq_false_2 by lia. done.
Qed.

Lemma stringify_nested_frame (raw : DataFrame) :
  (stringify_nested float_str raw).1 =
  {| columns := imap (λ j c, if nested raw j then (c.1, DObject) else c) (columns raw);
     rows := imap (λ j c, if nested raw j then CStr (py_str float_str c) else c) <$> rows raw |}.
Proof. unfold stringify_nested. by rewrite stringify_prefix. Qed.


Lemma elem_of_select_dtypes include t j :
  j ∈ select_dtypes include t ↔ has_dtype include t j = true.
Proof.
  unfold select_dtypes. rewrite list_elem_of_filter, elem_of_seq.
  split; [tauto|]. intros H; split; [done|]. split; [lia|]. simpl.
  unfold has_dtype, dtype_at in H.
  destruct (columns t !! j) eqn:E; simpl in H; [|done].
  by apply lookup_lt_Some in E.
Qed.

Lemma bool_decide_select_dtypes include t j :
  bool_decide (j ∈ select_dtypes include t) = has_dtype include t j.
Proof.
  destruct (has_dtype include t j) eqn:E.
  - apply bool_decide_eq_true_2. by apply elem_of_select_dtypes.
  - apply bool_decide_eq_false_2. rewrite elem_of_select_dtypes. congruence.
Qed.

Lemma NoDup_select_dtypes include t : NoDup (select_dtypes include t).
Proof. apply NoDup_filter, NoDup_seq. Qed.

Lemma fill_text_frame d :
  fill_text d =
  {| columns := columns d;
     rows := imap (λ j c, if bool_decide (j ∈ select_dtypes [DObject] d)
                          then (if isnull c then CStr "Desconocido" else c)
                          else c) <$> rows d |}.
Proof.
  unfold fill_text, fillna.
  apply (foldl_map_series (λ _ c, if isnull c then CStr "Desconocido" else c)).
  apply NoDup_select_dtypes.
Qed.

(** The two filling loops together fill every cell by the dtype of its
    column. *)
Lemma fill_frame d :
  fill_numeric (fill_text d) =
  {| columns := columns d;
     rows := imap (λ j c, filled_cell (dtype_at j d) c) <$> rows d |}.
Proof.
  unfold fill_numeric, fillna.
  rewrite (foldl_map_series (λ j c, if isnull c then zero_of (dtype_at j (fill_text d)) else c))
    by apply NoDup_select_dtypes.
  rewrite fill_text_frame. simpl. f_equal.
  rewrite <- list_fmap_compose. apply list_fmap_ext; intros _ r _. simpl.
  apply list_eq; intros i. rewrite !list_lookup_imap.
  destruct (r !! i) as [c|]; simpl; [|done]. f_equal.
  set (T := {| columns := columns d; rows := _ |}).
  rewrite !bool_decide_select_dtypes. unfold has_dtype, filled_cell.
  change (dtype_at i T) with (dtype_at i d).
  destruct (dtype_at i d) as [[]|]; simpl; destruct c; reflexivity.
Qed.

(** ** Running the methods *)

Lemma add_stdout_app ms1 ms2 s :
  add_stdout ms2 (add_stdout ms1 s) = add_stdout (ms1 ++ ms2) s.
Proof. unfold add_stdout; simpl. by rewrite <- app_assoc. Qed.

Lemma add_stdout_nil s : add_stdout [] s = s.
Proof. destruct s; unfold add_stdout; simpl. by rewrite app_nil_r. Qed.

Lemma print_all_run ms s : print_all ms s = (inr tt, add_stdout ms s).
Proof.
  unfold print_all.
  assert (∀ (acc : M unit) pre,
    (∀ s, acc s = (inr tt, add_stdout pre s)) →
    ∀ s, foldl (λ acc m, acc;; print m) acc ms s
         = (inr tt, add_stdout (pre ++ ms) s)) as H.
  { clear s. induction ms as [|m ms IH]; intros acc pre Hacc s; simpl.
    - by rewrite app_nil_r.
    - rewrite (IH _ (pre ++ [m])); [by rewrite <- app_assoc|].
      intros s'. unfold mbind, M_bind, bind. rewrite Hacc. unfold print.
      by rewrite add_stdout_app. }
  apply (H _ []). intros s'. by rewrite add_stdout_nil.
Qed.

(** [clean_data] in one equation. *)
Lemma clean_data_run s :
  clean_data float_str s =
  match raw_data s with
  | None => (inl AttributeError, s)
  | Some raw =>
      let nested := stringify_nested float_str raw in
      match drop_duplicates nested.1 with
      | inl e => (inl e, add_stdout nested.2 s)
      | inr d =>
          (inr tt,
           {| raw_data := raw_data s;
              df := Some (fill_numeric (fill_text d));
              results := results s;
              stdout := stdout s ++ nested.2 ++
                        [OkDuplicates (len nested.1 - len d) (len d); OkClean];
              files := files s |})
      end
  end.
Proof.
  unfold clean_data, mbind, M_bind, bind, get_raw_data.
  destruct (raw_data s) as [raw|] eqn:Hraw; [|done]. simpl.
  rewrite print_all_run.
  destruct (drop_duplicates _) as [e|d]; simpl; [done|].
  unfold print, add_stdout; simpl. rewrite Hraw, <- !app_assoc. done.
Qed.

Lemma clean_data_inr s s' raw :
  raw_data s = Some raw →
  clean_data float_str s = (inr tt, s') →
  ∃ d, drop_duplicates (stringify_nested float_str raw).1 = inr d
       ∧ df s' = Some (fill_numeric (fill_text d)).
Proof.
  intros Hraw. rewrite clean_data_run, Hraw. simpl.
  destruct (drop_duplicates _) as [e|d]; [done|].
  intros [= <-]. by exists d.
Qed.

Lemma clean_data_total s raw d :
  raw_data s = Some raw →
  drop_duplicates (stringify_nested float_str raw).1 = inr d →
  ∃ s', clean_data float_str s = (inr tt, s')
        ∧ df s' = Some (fill_numeric (fill_text d)).
Proof.
  intros Hraw Hd. rewrite clean_data_run, Hraw. simpl. rewrite Hd.
  eexists. split; [reflexivity|done].
Qed.

(** ** drop_duplicates *)

Lemma drop_duplicates_inr t d :
  drop_duplicates t = inr d →
  columns d = columns t
  ∧ rows d `sublist_of` rows t
  ∧ (columns t ≠ [] →
       rows d = keep_first_by (row_key (length (columns t))) [] (rows t))
  ∧ (columns t = [] ∨ Forall (λ r : row, forallb hashable r = true) (rows d)).
Proof.
  unfold drop_duplicates. case_bool_decide as He.
  - intros [= <-]. split; [done|]. split; [done|]. split.
    + intros Hc. destruct He as [?| ->]; done.
    + destruct He as [?| ->]; [by left|right; constructor].
  - destruct (forallb (forallb hashable) (rows t)) eqn:Hh; [|done].
    intros [= <-]. simpl. split; [done|]. split; [apply keep_first_by_sublist|].
    split; [done|]. right.
    rewrite List.forallb_forall in Hh. rewrite Forall_forall.
    intros r Hr. apply elem_of_keep_first_by in Hr as [Hr _].
    by apply Hh, list_elem_of_In.
Qed.

Lemma drop_duplicates_NoDup t d :
  drop_duplicates t = inr d → distinct_rows t → d = t.
Proof.
  unfold drop_duplicates. case_bool_decide; [by intros [= <-]|].
  destruct (forallb _ _); [|done]. intros [= <-] Hnd%distinct_rows_NoDup.
  rewrite keep_first_by_NoDup; [by destruct t|done|]. intros ? _. apply not_elem_of_nil.
Qed.

Lemma keep_first_first_occurrences n (l : list row) :
  first_occurrences_kept (same_row n) l (keep_first_by (row_key n) [] l).
Proof.
  exists (kept_positions (row_key n) [] l). split; [apply kept_positions_sorted|].
  split; [|apply keep_first_by_positions].
  intros i. rewrite elem_of_kept_positions. split.
  - intros (r & ? & _ & Hfirst). exists r. split; [done|].
    intros i' r' Hlt Hr'. rewrite <- row_key_eq. by apply (Hfirst i').
  - intros (r & ? & Hfirst). exists r. split; [done|].
    split; [apply not_elem_of_nil|].
    intros i' r' Hlt Hr'. rewrite row_key_eq. by apply (Hfirst i').
Qed.

Lemma StronglySorted_lt_NoDup (l : list nat) : StronglySorted lt l → NoDup l.
Proof.
  induction 1 as [|x l _ IH Hx]; constructor; [|done].
  intros Hin. rewrite Forall_forall in Hx. specialize (Hx _ Hin). lia.
Qed.

(** The description by positions determines the result. *)
Lemma first_occurrences_kept_unique n (l l' : list row) :
  first_occurrences_kept (same_row n) l l' → l' = keep_first_by (row_key n) [] l.
Proof.
  intros (kept & Hs & Hk & ->).
  destruct (keep_first_first_occurrences n l) as (kept' & Hs' & Hk' & ->).
  assert (AntiSymm eq lt) by (intros x y ??; lia).
  f_equal. apply (StronglySorted_unique lt); [done..|].
  apply NoDup_Permutation; [by apply StronglySorted_lt_NoDup..|].
  intros i. by rewrite Hk, Hk'.
Qed.

Lemma stringify_nested_columns_length raw :
  length (columns (stringify_nested float_str raw).1) = length (columns raw).
Proof. rewrite stringify_nested_frame. simpl. apply length_imap. Qed.

(** C10, as amended: when the table has at least one column, the rows that
    survive [clean_data] are the rows which, once the dict columns are
    converted to text, no earlier row is equal to, in their original
    order; the missing values are then filled in them.  Two rows are equal
    when they hold equal cells column by column: the same cell, numbers of
    the same value (1, 1.0 and [True]) or, in a table of more than one
    column, two missing values. *)
Theorem clean_data_keeps_first_occurrences s s' raw :
  raw_data s = Some raw →
  columns raw ≠ [] →
  clean_data float_str s = (inr tt, s') →
  ∃ d, first_occurrences_kept (same_row (length (columns raw)))
         (rows (stringify_nested float_str raw).1) (rows d)
       ∧ columns d = columns (stringify_nested float_str raw).1
       ∧ df s' = Some (fill_numeric (fill_text d)).
Proof.
  intros Hraw Hcols Hrun.
  destruct (clean_data_inr _ _ _ Hraw Hrun) as (d & Hd & Hdf).
  apply drop_duplicates_inr in Hd as (Hc & _ & Hrows & _).
  exists d. split; [|done].
  rewrite Hrows, stringify_nested_columns_length;
    [apply keep_first_first_occurrences|].
  intros Hnil. apply (f_equal length) in Hnil.
  rewrite stringify_nested_columns_length in Hnil. by destruct (columns raw).
Qed.

(** ** What the cleaner guarantees *)

Lemma filled_cell_not_null dt c :
  dt ≠ DBool → isnull (filled_cell (Some dt) c) = false.
Proof. intros Hdt. destruct dt, c; done. Qed.

Lemma stringify_nested_lookup raw j name dt :
  columns raw !! j = Some (name, dt) →
  columns (stringify_nested float_str raw).1 !! j
  = Some (name, if nested raw j then DObject else dt).
Proof.
  intros Hj. rewrite stringify_nested_frame. simpl.
  rewrite list_lookup_imap, Hj. simpl. by destruct (nested raw j).
Qed.

Lemma stringify_nested_names raw :
  names (stringify_nested float_str raw).1 = names raw.
Proof.
  unfold names. rewrite stringify_nested_frame. simpl.
  apply list_eq; intros j. rewrite !list_lookup_fmap, list_lookup_imap.
  destruct (columns raw !! j) as [[name dt]|]; simpl; [|done].
  by destruct (nested raw j).
Qed.

Lemma clean_data_columns s s' raw out j name dt :
  raw_data s = Some raw →
  clean_data float_str s = (inr tt, s') →
  df s' = Some out →
  columns raw !! j = Some (name, dt) →
  columns out !! j = Some (name, if nested raw j then DObject else dt).
Proof.
  intros Hraw Hrun Hout Hj.
  destruct (clean_data_inr _ _ _ Hraw Hrun) as (d & Hd & Hdf).
  rewrite Hout in Hdf. injection Hdf as ->.
  apply drop_duplicates_inr in Hd as (Hc & _).
  rewrite fill_frame. simpl. rewrite Hc. by apply stringify_nested_lookup.
Qed.


(** Where a cleaned row comes from. *)
Lemma clean_data_row s s' raw out (r' : row) :
  raw_data s = Some raw →
  clean_data float_str s = (inr tt, s') →
  df s' = Some out →
  r' ∈ rows out →
  ∃ r : row, r ∈ rows raw ∧
    r' = imap (λ j c, filled_cell (dtype_at j out)
                        (if nested raw j then CStr (py_str float_str c) else c)) r.
Proof.
  intros Hraw Hrun Hout Hr'.
  destruct (clean_data_inr _ _ _ Hraw Hrun) as (d & Hd & Hdf).
  rewrite Hout in Hdf. injection Hdf as ->.
  apply drop_duplicates_inr in Hd as (Hc & Hsub & _).
  rewrite fill_frame in Hr' |- *. simpl in Hr'.
  apply list_elem_of_fmap in Hr' as (rd & -> & Hrd).
  apply (elem_of_sublist _ _ _ Hrd) in Hsub. clear Hrd. rename Hsub into Hrd.
  rewrite stringify_nested_frame in Hrd. simpl in Hrd.
  apply list_elem_of_fmap in Hrd as (r & -> & Hr).
  exists r. split; [done|].
  apply list_eq; intros j. rewrite !list_lookup_imap.
  by destruct (r !! j).
Qed.

Lemma clean_data_dtype_at s s' raw out j name dt :
  raw_data s = Some raw →
  clean_data float_str s = (inr tt, s') →
  df s' = Some out →
  columns raw !! j = Some (name, dt) →
  dtype_at j out = Some (if nested raw j then DObject else dt).
Proof.
  intros Hraw Hrun Hout Hj.
  unfold dtype_at.
  by rewrite (clean_data_columns _ _ _ _ _ _ _ Hraw Hrun Hout Hj).
Qed.

(** C3, as amended: every row of the cleaned table comes from a raw row,
    cell by cell.  In a column that held no dict, a missing value has
    become "Desconocido" when the column is a text column and 0 when it is
    a numeric one, and a cell that was present is kept.  A column that
    held a dict is converted to text before the filling: each of its
    cells is what [str] gives for the raw cell, so that a missing value
    becomes the text "nan" (NaN) or "None" (a JSON null), not the
    sentinel. *)
Theorem clean_data_fills_nulls s s' raw out :
  raw_data s = Some raw →
  clean_data float_str s = (inr tt, s') →
  df s' = Some out →
  cells_cleaned (py_str float_str) "Desconocido" raw out
  ∧ py_str float_str CNull = "nan"
  ∧ py_str float_str CNone = "None".
Proof.
  intros Hraw Hrun Hout. split; [|done]. intros r' Hr'.
  destruct (clean_data_row _ _ _ _ _ Hraw Hrun Hout Hr') as (r & Hr & ->).
  exists r. split; [done|]. split; [apply length_imap|].
  intros j name dt c Hj Hc.
  rewrite list_lookup_imap, Hc. simpl.
  rewrite (clean_data_dtype_at _ _ _ _ _ _ _ Hraw Hrun Hout Hj).
  split; [|split].
  - intros ->. done.
  - intros -> Hnull. unfold filled_cell. rewrite Hnull. by destruct dt.
  - intros -> Hnull. unfold filled_cell. by rewrite Hnull.
Qed.

(** ** Cleaning a cleaned table *)

Lemma existsb_false {A} (f : A → bool) (l : list A) :
  existsb f l = false ↔ ∀ x, x ∈ l → f x = false.
Proof.
  induction l as [|y l IH]; simpl.
  - split; [|done]. intros _ x Hx. by apply elem_of_nil in Hx.
  - rewrite orb_false_iff, IH. split.
    + intros [Hy Hl] x [->|Hx]%elem_of_cons; auto.
    + intros Hall. split; [apply Hall; left|intros x Hx; apply Hall; by right].
Qed.

Lemma filled_cell_is_dict dt c : is_dict (filled_cell dt c) = is_dict c.
Proof. destruct c; try done; by destruct dt as [[]|]. Qed.

Lemma filled_cell_hashable dt c : hashable (filled_cell dt c) = hashable c.
Proof. destruct c; try done; by destruct dt as [[]|]. Qed.

Lemma filled_cell_idemp dt c : filled_cell dt (filled_cell dt c) = filled_cell dt c.
Proof. destruct c; try done; by destruct dt as [[]|]. Qed.

Lemma clean_data_columns_length s s' raw out :
  raw_data s = Some raw →
  clean_data float_str s = (inr tt, s') →
  df s' = Some out →
  length (columns out) = length (columns raw).
Proof.
  intros Hraw Hrun Hout.
  destruct (clean_data_inr _ _ _ Hraw Hrun) as (d & Hd & Hdf).
  rewrite Hout in Hdf. injection Hdf as ->.
  apply drop_duplicates_inr in Hd as (Hc & _).
  rewrite fill_frame. simpl. rewrite Hc. apply stringify_nested_columns_length.
Qed.

(** No dict is left in a column of a cleaned table. *)
Lemma clean_data_no_dict s s' raw out j :
  raw_data s = Some raw →
  clean_data float_str s = (inr tt, s') →
  df s' = Some out →
  nested out j = false.
Proof.
  intros Hraw Hrun Hout. unfold nested.
  case_bool_decide as Hj; [simpl|done].
  rewrite (clean_data_columns_length _ _ _ _ Hraw Hrun Hout) in Hj.
  apply existsb_false. intros c Hc. unfold series in Hc.
  apply list_elem_of_fmap in Hc as (r' & -> & Hr').
  destruct (clean_data_row _ _ _ _ _ Hraw Hrun Hout Hr') as (r & Hr & ->).
  unfold cell_at. rewrite list_lookup_imap.
  destruct (r !! j) as [c|] eqn:Hc; simpl; [|done].
  rewrite filled_cell_is_dict.
  destruct (nested raw j) eqn:Hn; [done|].
  unfold nested in Hn. rewrite bool_decide_eq_true_2 in Hn by done. simpl in Hn.
  rewrite existsb_false in Hn. apply Hn. unfold series.
  apply list_elem_of_fmap. exists r. split; [|done].
  unfold cell_at. by rewrite Hc.
Qed.

Lemma stringify_nested_id t :
  (∀ j, nested t j = false) → (stringify_nested float_str t).1 = t.
Proof.
  intros Hn. rewrite stringify_nested_frame. destruct t as [cols rs]; simpl.
  f_equal.
  - apply list_eq; intros j. rewrite list_lookup_imap, Hn.
    by destruct (cols !! j).
  - rewrite <- (list_fmap_id rs) at 2. apply list_fmap_ext; intros _ r _. simpl.
    apply list_eq; intros j. rewrite list_lookup_imap, Hn.
    by destruct (r !! j).
Qed.

Lemma list_fmap_id_on {A} (f : A → A) (l : list A) :
  (∀ x, x ∈ l → f x = x) → f <$> l = l.
Proof.
  intros Hf. rewrite <- (list_fmap_id l) at 2.
  apply list_fmap_ext. intros i x Hx. apply Hf. by eapply list_elem_of_lookup_2.
Qed.

(** Filling is the identity on rows that were already filled. *)
Lemma fill_filled d t :
  columns t = columns d →
  rows t `sublist_of` rows (fill_numeric (fill_text d)) →
  fill_numeric (fill_text t) = t.
Proof.
  intros Hc Hsub. rewrite fill_frame. destruct t as [cols rs]; simpl in *.
  subst cols. f_equal. apply list_fmap_id_on. intros r' Hr'.
  apply (elem_of_sublist _ _ _ Hr') in Hsub. rewrite fill_frame in Hsub.
  simpl in Hsub. apply list_elem_of_fmap in Hsub as (r & -> & _).
  apply list_eq; intros j. rewrite !list_lookup_imap.
  destruct (r !! j) as [c|]; simpl; [|done].
  unfold dtype_at; simpl. by rewrite filled_cell_idemp.
Qed.

Lemma clean_data_hashable s s' raw out :
  raw_data s = Some raw →
  clean_data float_str s = (inr tt, s') →
  df s' = Some out →
  ∃ out2, drop_duplicates out = inr out2.
Proof.
  intros Hraw Hrun Hout.
  destruct (clean_data_inr _ _ _ Hraw Hrun) as (d & Hd & Hdf).
  rewrite Hout in Hdf. injection Hdf as ->.
  apply drop_duplicates_inr in Hd as (Hc & _ & _ & Hh).
  unfold drop_duplicates. case_bool_decide as He; [by eexists|].
  rewrite fill_frame in He |- *. simpl in *.
  destruct Hh as [Hnil|Hh]; [rewrite Hc in He; tauto|].
  assert (forallb (forallb hashable)
            (imap (λ j c, filled_cell (dtype_at j d) c) <$> rows d) = true) as ->;
    [|by eexists].
  apply List.forallb_forall. intros r' Hr'%list_elem_of_In.
  apply list_elem_of_fmap in Hr' as (r & -> & Hr).
  rewrite Forall_forall in Hh. specialize (Hh _ Hr).
  rewrite List.forallb_forall in Hh |- *. intros c' Hc'%list_elem_of_In.
  apply list_elem_of_lookup in Hc' as (j & Hj). rewrite list_lookup_imap in Hj.
  destruct (r !! j) as [c|] eqn:E; simpl in Hj; [|done]. injection Hj as <-.
  rewrite filled_cell_hashable. apply Hh, list_elem_of_In.
  by eapply list_elem_of_lookup_2.
Qed.

(** C7, as amended: cleaning a cleaned table succeeds and changes neither
    a column nor a cell; it only drops rows: what is left is what
    [drop_duplicates] leaves of that table, that is, when there is a
    column, the rows that no earlier row is equal to (rows which the
    filling of missing values made equal are equal now).  When the
    cleaned table has no two equal rows, cleaning it again gives the same
    table.  Rows are equal when they hold, column by column, the same
    cell or numbers of the same value (1, 1.0 and [True]). *)
Theorem clean_data_twice s s' raw out s2 :
  raw_data s = Some raw →
  clean_data float_str s = (inr tt, s') →
  df s' = Some out →
  raw_data s2 = Some out →
  ∃ s2' out2,
    clean_data float_str s2 = (inr tt, s2')
    ∧ df s2' = Some out2
    ∧ drop_duplicates out = inr out2
    ∧ columns out2 = columns out
    ∧ rows out2 `sublist_of` rows out
    ∧ (columns out ≠ [] →
         first_occurrences_kept (same_row (length (columns out)))
           (rows out) (rows out2))
    ∧ (distinct_rows out → out2 = out).
Proof.
  intros Hraw Hrun Hout Hraw2.
  destruct (clean_data_hashable _ _ _ _ Hraw Hrun Hout) as (out2 & Hdd).
  assert ((stringify_nested float_str out).1 = out) as Hid.
  { apply stringify_nested_id. intros j. by apply (clean_data_no_dict s s' raw). }
  destruct (clean_data_total s2 out out2 Hraw2) as (s2' & Hrun2 & Hdf2).
  { by rewrite Hid. }
  pose proof (drop_duplicates_inr _ _ Hdd) as (Hc & Hsub & Hkeep & _).
  destruct (clean_data_inr _ _ _ Hraw Hrun) as (d & _ & Hdf).
  rewrite Hout in Hdf. injection Hdf as Hdf.
  exists s2', out2. split; [done|]. split.
  { rewrite Hdf2. f_equal. apply (fill_filled d).
    - rewrite Hc, Hdf, fill_frame. done.
    - by rewrite <- Hdf. }
  split; [done|]. split; [done|]. split; [done|]. split.
  - intros Hcols. rewrite (Hkeep Hcols). apply keep_first_first_occurrences.
  - intros Hnd. by apply drop_duplicates_NoDup.
Qed.

(** ** create_daily_column *)

Lemma create_daily_column_run days s :
  create_daily_column days s =
  match df s with
  | None => (inl AttributeError, s)
  | Some t =>
      match col_index "MonthlyCharges" t with
      | None => (inr tt, s)
      | Some j =>
          match truediv (dtype_at j t) days (series j t) with
          | inl e => (inl e, s)
          | inr daily =>
              (inr tt,
               {| raw_data := raw_data s;
                  df := Some (set_column "DailyCharges"
                                (match dtype_at j t with
                                 | Some DObject => DObject
                                 | _ => DFloat
                                 end) daily t);
                  results := results s;
                  stdout := stdout s ++ [OkDailyCreated];
                  files := files s |})
          end
      end
  end.
Proof.
  unfold create_daily_column, mbind, M_bind, bind, get_df. simpl.
  destruct (df s) as [t|]; [|done].
  destruct (col_index "MonthlyCharges" t) as [j|]; [|done].
  destruct (truediv _ _ _) as [e|daily]; done.
Qed.

Lemma traverse_inr {A B} (f : A → exn + B) l ys :
  traverse f l = inr ys →
  length ys = length l
  ∧ ∀ i x, l !! i = Some x → ∃ y, ys !! i = Some y ∧ f x = inr y.
Proof.
  revert ys. induction l as [|x l IH]; intros ys; simpl.
  - intros [= <-]. split; [done|]. intros i x Hx. by rewrite lookup_nil in Hx.
  - destruct (f x) as [e|y] eqn:Hy; [done|].
    destruct (traverse f l) as [e|ys'] eqn:Hys; [done|]. intros [= <-].
    destruct (IH _ eq_refl) as (Hlen & Hall). split; [simpl; by rewrite Hlen|].
    intros [|i] x' Hx'; simpl in *.
    + injection Hx' as <-. by exists y.
    + by apply Hall.
Qed.

Lemma traverse_inl {A B} (f : A → exn + B) l e :
  traverse f l = inl e → ∃ x, x ∈ l ∧ f x = inl e.
Proof.
  induction l as [|x l IH]; simpl; [done|].
  destruct (f x) as [e'|y] eqn:Hx.
  - intros [= <-]. exists x. split; [left|done].
  - destruct (traverse f l) as [e'|ys]; [|done]. intros [= <-].
    destruct IH as (x' & ? & ?); [done|]. exists x'. split; [by right|done].
Qed.

Lemma traverse_fails {A B} (f : A → exn + B) l x e :
  x ∈ l → f x = inl e → ∃ e', traverse f l = inl e'.
Proof.
  induction l as [|y l IH]; intros Hx Hf; [by apply elem_of_nil in Hx|].
  simpl. destruct (f y) as [e'|b] eqn:Hy; [by eexists|].
  apply elem_of_cons in Hx as [->|Hx]; [congruence|].
  destruct (IH Hx Hf) as (e' & ->). by eexists.
Qed.

Lemma traverse_fmap {A B} (f : A → exn + B) (g : A → B) l :
  (∀ x, x ∈ l → f x = inr (g x)) → traverse f l = inr (g <$> l).
Proof.
  induction l as [|x l IH]; intros Hall; simpl; [done|].
  rewrite (Hall x) by left. rewrite IH; [done|].
  intros x' Hx'. apply Hall. by right.
Qed.

Lemma traverse_inr_fmap {A B} (f : A → exn + B) (g : A → B) l ys :
  traverse f l = inr ys →
  (∀ x y, x ∈ l → f x = inr y → y = g x) → ys = g <$> l.
Proof.
  revert ys. induction l as [|x l IH]; intros ys; simpl.
  - by intros [= <-].
  - destruct (f x) as [e|y] eqn:Hy; [done|].
    destruct (traverse f l) as [e|ys'] eqn:Hys; [done|]. intros [= <-] Hall.
    csimpl. f_equal; [apply Hall; [left|done]|].
    apply IH; [done|]. intros x' y' Hx'. apply Hall. by right.
Qed.

(** *** Dividing a series *)

Lemma truediv_length dt days cs ys :
  truediv dt days cs = inr ys → length ys = length cs.
Proof.
  assert (∀ f, traverse f cs = inr ys → length ys = length cs) as Hlen.
  { intros f Hf. by apply traverse_inr in Hf as [? _]. }
  unfold truediv. destruct dt as [[]|]; try apply Hlen.
  destruct (traverse (py_truediv days) cs) as [e|r] eqn:E.
  - destruct e; try done; apply Hlen.
  - intros [= <-]. by apply Hlen in E.
Qed.

Lemma Qeq_bool_false x y : ¬ (x == y)%Q → Qeq_bool x y = false.
Proof.
  intros Hne. destruct (Qeq_bool x y) eqn:E; [|done].
  by apply Qeq_bool_iff in E.
Qed.

Lemma truediv_divisible dt days cs :
  ¬ (days == 0)%Q → Forall divisible cs →
  truediv dt days cs = inr (quotient days <$> cs).
Proof.
  intros Hdays%Qeq_bool_false Hdiv. rewrite Forall_forall in Hdiv.
  assert (∀ c, c ∈ cs → numpy_truediv days c = inr (quotient days c)) as Hnp.
  { intros c [Hn|[x Hx]]%Hdiv; destruct c; try done;
      unfold numpy_truediv, float_div, quotient; simpl; by rewrite Hdays. }
  assert (∀ c, c ∈ cs →
            (if isnull c then inr CNull else py_truediv days c)
            = inr (quotient days c)) as Hmask.
  { intros c [Hn|[x Hx]]%Hdiv; destruct c; try done;
      unfold py_truediv, quotient; simpl; by rewrite Hdays. }
  assert (∀ c y, c ∈ cs → py_truediv days c = inr y → y = quotient days c) as Hpy.
  { intros c y [Hn|[x Hx]]%Hdiv; destruct c; try done;
      unfold py_truediv, quotient; simpl; rewrite Hdays; by intros [= <-]. }
  assert (∀ c e, c ∈ cs → py_truediv days c = inl e → e = TypeError) as Herr.
  { intros c e _. destruct c; unfold py_truediv; simpl; rewrite ?Hdays;
      try done; by intros [= <-]. }
  unfold truediv. destruct dt as [[]|]; try by apply traverse_fmap.
  destruct (traverse (py_truediv days) cs) as [e|r] eqn:E.
  - apply traverse_inl in E as (c & Hc & He). rewrite (Herr c e Hc He).
    by apply traverse_fmap.
  - f_equal. by eapply traverse_inr_fmap.
Qed.

(** Why a division raises. *)
Lemma py_truediv_inl days c e :
  py_truediv days c = inl e →
  (e = TypeError ∧ is_number c = false ∧ c ≠ CNull)
  ∨ (e = ZeroDivisionError ∧ (days == 0)%Q ∧ (is_number c = true ∨ c = CNull)).
Proof.
  unfold py_truediv.
  destruct c; try (intros [= <-]; by left);
    (destruct (Qeq_bool days 0) eqn:Hd; [|done]);
    apply Qeq_bool_iff in Hd; intros [= <-]; right; auto.
Qed.

Lemma truediv_inl dt days cs e :
  truediv dt days cs = inl e →
  (e = TypeError ∧ ∃ c, c ∈ cs ∧ isnull c = false ∧ is_number c = false)
  ∨ (e = ZeroDivisionError ∧ (days == 0)%Q ∧ dt = Some DObject
     ∧ ∃ c, c ∈ cs ∧ (is_number c = true ∨ c = CNull)).
Proof.
  assert (traverse (numpy_truediv days) cs = inl e →
          e = TypeError ∧ ∃ c, c ∈ cs ∧ isnull c = false ∧ is_number c = false)
    as Hnp.
  { intros (c & Hc & He)%traverse_inl.
    assert (e = TypeError ∧ isnull c = false ∧ is_number c = false) as (-> & ? & ?).
    { destruct c; simpl in He; try done; by injection He as <-. }
    split; [done|]. by exists c. }
  unfold truediv. destruct dt as [[]|]; try (intros H; left; by apply Hnp).
  clear Hnp.
  destruct (traverse (py_truediv days) cs) as [e'|r] eqn:E; [|done].
  destruct (decide (e' = TypeError)) as [->|Hne].
  - intros (c & Hc & He)%traverse_inl.
    destruct (isnull c) eqn:Hnull; [done|].
    apply py_truediv_inl in He as [(-> & Hnum & _)|(-> & Hd & Hc')].
    + left. split; [done|]. by exists c.
    + right. split; [done|]. split; [done|]. split; [done|]. by exists c.
  - intros He. assert (e' = e) as -> by (destruct e'; congruence).
    apply traverse_inl in E as (c & Hc & He').
    apply py_truediv_inl in He' as [(-> & _)|(-> & Hd & Hc')]; [done|].
    right. split; [done|]. split; [done|]. split; [done|]. by exists c.
Qed.

(** Text in the series makes the division raise. *)
Lemma truediv_text dt days cs c :
  c ∈ cs → isnull c = false → is_number c = false →
  ∃ e, truediv dt days cs = inl e.
Proof.
  intros Hc Hnull Hnum.
  assert (numpy_truediv days c = inl TypeError) as Hnp by (by destruct c).
  assert (py_truediv days c = inl TypeError) as Hpy by (by destruct c).
  unfold truediv. destruct dt as [[]|];
    try (by eapply traverse_fails).
  destruct (traverse_fails _ _ _ _ Hc Hpy) as (e & ->).
  destruct e; try by eexists.
  eapply traverse_fails; [done|]. simpl. by rewrite Hnull.
Qed.


Lemma col_index_Some name t k :
  col_index name t = Some k ↔
  ∃ dt, columns t !! k = Some (name, dt)
        ∧ ∀ j c, columns t !! j = Some c → j < k → c.1 ≠ name.
Proof.
  unfold col_index. split.
  - intros ([k' [n dt]] & Hf & ->)%fmap_Some. simpl.
    apply list_find_Some in Hf as (Hk & Hn & Hfirst). simpl in Hn. subst n.
    by exists dt.
  - intros (dt & Hk & Hfirst). apply fmap_Some. exists (k, (name, dt)).
    split; [|done]. apply list_find_Some. done.
Qed.

Lemma col_index_None name t :
  col_index name t = None ↔ name ∉ names t.
Proof.
  unfold col_index, names. rewrite fmap_None, list_find_None, Forall_forall.
  rewrite list_elem_of_fmap. split.
  - intros Hall (c & -> & Hc). by apply (Hall c).
  - intros Hn c Hc Heq. apply Hn. by exists c.
Qed.

Lemma col_index_set_column name dt cs t :
  col_index name (set_column name dt cs t) = Some (target name t).
Proof.
  unfold set_column, target.
  destruct (col_index name t) as [k|] eqn:Hk; simpl; apply col_index_Some; simpl.
  - apply col_index_Some in Hk as (dt0 & Hk & Hfirst). exists dt. split.
    + apply list_lookup_insert_eq. by eapply lookup_lt_Some.
    + intros j c Hj Hlt. rewrite list_lookup_insert_ne in Hj by lia. eauto.
  - apply col_index_None in Hk. exists dt. split.
    + by apply list_lookup_middle.
    + intros j c Hj Hlt. rewrite lookup_app_l in Hj by done.
      intros <-. apply Hk. unfold names. apply list_elem_of_fmap.
      exists c. split; [done|]. by eapply list_elem_of_lookup_2.
Qed.

Lemma set_column_len name dt cs t :
  length cs = len t → len (set_column name dt cs t) = len t.
Proof.
  intros Hlen. unfold set_column, len in *.
  destruct (col_index name t); simpl; by rewrite length_zip_with_l_eq.
Qed.

Lemma set_column_row name dt cs t i (r : row) c :
  rows t !! i = Some r → cs !! i = Some c →
  rows (set_column name dt cs t) !! i
  = Some (match col_index name t with
          | Some k => <[k := c]> r
          | None => r ++ [c]
          end).
Proof.
  intros Hr Hc. unfold set_column.
  destruct (col_index name t); simpl; rewrite lookup_zip_with, Hr; simpl;
    by rewrite Hc.
Qed.

Lemma col_index_lt name t k : col_index name t = Some k → k < length (columns t).
Proof.
  intros (dt & Hk & _)%col_index_Some. by eapply lookup_lt_Some.
Qed.

(** Every cell of a column of a cleaned table can be hashed: the labels
    that [analyze_data] counts and groups by never make it raise. *)
Lemma clean_data_series_hashable s s' raw out name j :
  raw_data s = Some raw →
  clean_data float_str s = (inr tt, s') →
  df s' = Some out →
  col_index name out = Some j →
  Forall (λ c, hashable c = true) (series j out).
Proof.
  intros Hraw Hrun Hout Hj.
  destruct (clean_data_inr _ _ _ Hraw Hrun) as (d & Hd & Hdf).
  rewrite Hout in Hdf. injection Hdf as ->.
  apply drop_duplicates_inr in Hd as (Hc & _ & _ & Hh).
  rewrite fill_frame in Hj |- *.
  destruct Hh as [Hnil|Hh].
  { apply col_index_lt in Hj. simpl in Hj. rewrite Hc, Hnil in Hj.
    simpl in Hj. lia. }
  unfold series. simpl. rewrite Forall_fmap, Forall_fmap.
  eapply Forall_impl; [exact Hh|]. intros r Hr. simpl.
  unfold cell_at. rewrite list_lookup_imap.
  destruct (r !! j) as [c|] eqn:E; simpl; [|done].
  rewrite filled_cell_hashable.
  rewrite List.forallb_forall in Hr. apply Hr, list_elem_of_In.
  by eapply list_elem_of_lookup_2.
Qed.

(** The new cell is found at the target position of a well-formed row. *)
Lemma set_column_cell_at name t (r : row) c :
  length r = length (columns t) →
  cell_at (target name t)
    (match col_index name t with
     | Some k => <[k := c]> r
     | None => r ++ [c]
     end) = c.
Proof.
  intros Hlen. unfold target, cell_at.
  destruct (col_index name t) as [k|] eqn:Hk; simpl.
  - rewrite list_lookup_insert_eq; [done|]. apply col_index_lt in Hk. lia.
  - rewrite <- Hlen. by rewrite list_lookup_middle.
Qed.

(** The other cells stay where they are. *)
Lemma set_column_cell_at_ne name t (r : row) c j :
  length r = length (columns t) →
  j < length (columns t) → j ≠ target name t →
  cell_at j (match col_index name t with
             | Some k => <[k := c]> r
             | None => r ++ [c]
             end) = cell_at j r.
Proof.
  intros Hlen Hj Hne. unfold target, cell_at in *.
  destruct (col_index name t) as [k|] eqn:Hk; simpl in *.
  - by rewrite list_lookup_insert_ne.
  - rewrite lookup_app_l by lia. done.
Qed.

Lemma well_formed_row t i (r : row) :
  well_formed t → rows t !! i = Some r → length r = length (columns t).
Proof.
  unfold well_formed. rewrite Forall_lookup. intros Hwf Hr. by apply (Hwf i).
Qed.

Lemma series_lookup j t i (r : row) :
  rows t !! i = Some r → series j t !! i = Some (cell_at j r).
Proof. intros Hr. unfold series. by rewrite list_lookup_fmap, Hr. Qed.

(** C5, as amended: for a non-zero [days] and a well-formed table, when
    the column "MonthlyCharges" holds numbers or missing values the call
    ends normally and "DailyCharges" holds, row by row, the monthly charge
    over [days]; when there is no such column the call changes nothing and
    raises nothing. *)
Theorem create_daily_column_sets_daily_charges days s t :
  df s = Some t →
  well_formed t →
  ¬ (days == 0)%Q →
  (col_index "MonthlyCharges" t = None →
     create_daily_column days s = (inr tt, s))
  ∧ ((∀ j, col_index "MonthlyCharges" t = Some j → Forall divisible (series j t)) →
     sets_daily_charges days t (create_daily_column days s)).
Proof.
  intros Hdf Hwf Hdays. rewrite create_daily_column_run, Hdf. split.
  - intros Hnone. by rewrite Hnone.
  - intros Hdiv j Hj. rewrite Hj. specialize (Hdiv j Hj).
    rewrite (truediv_divisible _ _ _ Hdays Hdiv). simpl.
    eexists _, (target "DailyCharges" t).
    split; [done|]. split; [done|].
    split; [apply col_index_set_column|].
    split; [apply set_column_len; unfold series, len; by rewrite !length_fmap|].
    intros i r r' Hr Hr'.
    assert ((quotient days <$> series j t) !! i = Some (quotient days (cell_at j r)))
      as Hy by (by rewrite list_lookup_fmap, (series_lookup j t i r Hr)).
    rewrite (set_column_row _ _ _ _ _ _ _ Hr Hy) in Hr'. injection Hr' as <-.
    rewrite set_column_cell_at by (by eapply well_formed_row).
    unfold quotient. by destruct (cell_num (cell_at j r)).
Qed.

Lemma set_column_names name dt cs t :
  (name ∈ names t → names (set_column name dt cs t) = names t)
  ∧ (name ∉ names t → names (set_column name dt cs t) = names t ++ [name]).
Proof.
  unfold names, set_column.
  destruct (col_index name t) as [k|] eqn:Hk; simpl.
  - split.
    + intros _. rewrite list_fmap_insert. simpl.
      apply col_index_Some in Hk as (dt0 & Hk & _).
      apply list_insert_id. by rewrite list_lookup_fmap, Hk.
    + intros Hn. apply col_index_None in Hn. congruence.
  - split.
    + intros Hin. by apply col_index_None in Hk.
    + intros _. by rewrite fmap_app.
Qed.

(** C9, as amended: whatever the outcome, [create_daily_column] leaves the
    number of rows and every column not named "DailyCharges" as they were,
    at the same position.  When there is a column "MonthlyCharges" and the
    call returns, the derived column replaces, at its position, the column
    named "DailyCharges" if there is one (the names are unchanged), and is
    appended behind the last column otherwise.  When there is no column
    "MonthlyCharges", or the call raises, the table is unchanged. *)
Theorem create_daily_column_frame days s t :
  df s = Some t →
  well_formed t →
  ∃ t', df (create_daily_column days s).2 = Some t'
        ∧ len t' = len t
        ∧ (∀ j name dt, columns t !! j = Some (name, dt) →
                        name ≠ "DailyCharges" → column_kept j t t')
        ∧ ("MonthlyCharges" ∈ names t →
           (create_daily_column days s).1 = inr tt →
             col_index "DailyCharges" t' = Some (target "DailyCharges" t)
             ∧ ("DailyCharges" ∈ names t → names t' = names t)
             ∧ ("DailyCharges" ∉ names t →
                  names t' = names t ++ ["DailyCharges"]))
        ∧ ("MonthlyCharges" ∉ names t ∨ (create_daily_column days s).1 ≠ inr tt →
           t' = t).
Proof.
  intros Hdf Hwf. rewrite create_daily_column_run, Hdf.
  destruct (col_index "MonthlyCharges" t) as [m|] eqn:Hm.
  2:{ exists t. split; [done|]. split; [done|]. split; [done|].
      split; [|done]. intros Hin. by apply col_index_None in Hm. }
  destruct (truediv _ _ _) as [e|daily] eqn:Hdaily.
  { exists t. split; [done|]. split; [done|]. split; [done|]. done. }
  simpl. pose proof (truediv_length _ _ _ _ Hdaily) as Hlen.
  unfold series in Hlen. rewrite length_fmap in Hlen.
  eexists. split; [done|]. split; [by apply set_column_len|].
  split.
  2:{ split.
      - intros _ _. split; [apply col_index_set_column|apply set_column_names].
      - intros [Hn|Hne]; [|done]. apply col_index_None in Hn. congruence. }
  intros j name dt Hj Hname.
  assert (j < length (columns t)) as Hlt by (by eapply lookup_lt_Some).
  assert (j ≠ target "DailyCharges" t) as Hne.
  { unfold target. destruct (col_index "DailyCharges" t) as [k|] eqn:Hk; simpl; [|lia].
    apply col_index_Some in Hk as (dt' & Hk & _). intros <-. congruence. }
  split.
  - unfold set_column, target in *.
    destruct (col_index "DailyCharges" t) as [k|]; simpl in *.
    + by rewrite list_lookup_insert_ne.
    + by rewrite lookup_app_l.
  - apply list_eq; intros i. unfold series at 1. rewrite list_lookup_fmap.
    destruct (rows t !! i) as [r|] eqn:Hr.
    + destruct (lookup_lt_is_Some_2 daily i) as (c & Hc).
      { rewrite Hlen. by eapply lookup_lt_Some. }
      rewrite (set_column_row _ _ _ _ _ _ _ Hr Hc). simpl.
      rewrite set_column_cell_at_ne by (done || by eapply well_formed_row).
      symmetry. by apply series_lookup.
    + unfold series. rewrite list_lookup_fmap, Hr. simpl.
      apply lookup_ge_None in Hr.
      rewrite (proj2 (lookup_ge_None _ _)); [done|].
      fold (len (set_column "DailyCharges"
                   match dtype_at m t with Some DObject => DObject | _ => DFloat end
                   daily t)).
      rewrite set_column_len by done. done.
Qed.

(** ** analyze_data *)

(** The state after a successful analysis. *)
Lemma analyze_data_run s :
  analyze_data s =
  match df s with
  | None => (inl AttributeError, s)
  | Some t =>
      match col_index "Churn" t with
      | None => (inl KeyError, s)
      | Some churn =>
          match value_counts_normalized (series churn t) with
          | inl e => (inl e, s)
          | inr rate =>
              match find_charge_col (names t) with
              | Some charge_col =>
                  match groupby_mean (series churn t)
                          (series (default 0 (col_index charge_col t)) t) with
                  | inl e => (inl e, s)
                  | inr avg =>
                      let res := {| churn_rate := rate; avg_charges := avg;
                                    total_customers := len t |} in
                      (inr res,
                       {| raw_data := raw_data s; df := df s; results := Some res;
                          stdout := stdout s ++ [OkChargeColumn charge_col; OkAnalysis];
                          files := files s |})
                  end
              | None =>
                  let res := {| churn_rate := rate; avg_charges := [];
                                total_customers := len t |} in
                  (inr res,
                   {| raw_data := raw_data s; df := df s; results := Some res;
                      stdout := stdout s ++ [WarnNoChargeColumn; OkAnalysis];
                      files := files s |})
              end
          end
      end
  end.
Proof.
  unfold analyze_data, mbind, M_bind, bind, get_df. simpl.
  destruct (df s) as [t|] eqn:Hdf; [|done].
  destruct (col_index "Churn" t) as [churn|]; [|done].
  destruct (value_counts_normalized _) as [e|rate]; [done|]. simpl.
  destruct (find_charge_col (names t)) as [c|]; simpl.
  - destruct (groupby_mean _ _) as [e|avg]; [done|]. simpl.
    unfold print, add_stdout; simpl. rewrite Hdf. by rewrite <- app_assoc.
  - unfold print, add_stdout; simpl. rewrite Hdf. by rewrite <- app_assoc.
Qed.

Lemma value_counts_normalized_inl cs e :
  value_counts_normalized cs = inl e → e = TypeError.
Proof.
  unfold value_counts_normalized, value_counts.
  destruct (forallb hashable (dropna cs)); [done|]. by intros [= <-].
Qed.

Lemma mean_inl cs e : mean cs = inl e → e = TypeError.
Proof. unfold mean. destruct (forallb _ _); [done|]. by intros [= <-]. Qed.

Lemma groupby_mean_inl keys vals e :
  groupby_mean keys vals = inl e → e = TypeError.
Proof.
  unfold groupby_mean. destruct (forallb hashable _); [|by intros [= <-]].
  intros (k & _ & Hk)%traverse_inl.
  destruct (mean _) as [e'|m] eqn:Hm; [|done]. injection Hk as <-.
  by eapply mean_inl.
Qed.

(** *** Counting labels *)

Lemma sum_list_fmap_plus {A} (f g : A → nat) (l : list A) :
  sum_list ((λ x, f x + g x) <$> l) = sum_list (f <$> l) + sum_list (g <$> l).
Proof. induction l as [|x l IH]; csimpl; [done|]. rewrite IH. lia. Qed.

Lemma sum_list_indicator (x : cell) (vs : list cell) :
  NoDup (py_key <$> vs) →
  sum_list ((λ v, if decide (py_key x = py_key v) then 1 else 0) <$> vs)
  = if decide (py_key x ∈ py_key <$> vs) then 1 else 0.
Proof.
  induction vs as [|v vs IH]; csimpl; intros Hnd; [done|].
  apply NoDup_cons in Hnd as [Hv Hnd]. rewrite IH by done.
  destruct (decide (py_key x = py_key v)) as [Heq|Hne].
  - rewrite (decide_False (P := py_key x ∈ py_key <$> vs)) by (by rewrite Heq).
    rewrite decide_True by (rewrite Heq; left). done.
  - destruct (decide (py_key x ∈ py_key <$> vs)).
    + rewrite decide_True by (by right). done.
    + rewrite decide_False; [done|]. rewrite elem_of_cons. tauto.
Qed.

Lemma count_cons v x l :
  count v (x :: l) = (if decide (py_key x = py_key v) then 1 else 0) + count v l.
Proof.
  unfold count. rewrite filter_cons. by destruct (decide (py_key x = py_key v)).
Qed.

Lemma sum_list_count (vs l : list cell) :
  NoDup (py_key <$> vs) →
  sum_list ((λ v, count v l) <$> vs)
  = length (filter (λ x, py_key x ∈ py_key <$> vs) l).
Proof.
  intros Hnd. induction l as [|x l IH].
  - simpl. clear Hnd. induction vs; csimpl; [done|]. by rewrite IHvs.
  - rewrite filter_cons.
    rewrite (list_fmap_ext (λ v, count v (x :: l))
               (λ v, (if decide (py_key x = py_key v) then 1 else 0) + count v l) vs)
      by (intros; apply count_cons).
    rewrite sum_list_fmap_plus, IH, sum_list_indicator by done.
    by destruct (decide (py_key x ∈ py_key <$> vs)).
Qed.

Lemma filter_all {A} (P : A → Prop) `{∀ x, Decision (P x)} (l : list A) :
  (∀ x, x ∈ l → P x) → filter P l = l.
Proof.
  induction l as [|x l IH]; intros Hall; [done|].
  rewrite filter_cons, decide_True by (apply Hall; left).
  f_equal. apply IH. intros y Hy. apply Hall. by right.
Qed.

(** The counts of the distinct labels add up to the number of labels. *)
Lemma sum_list_count_keep_first (l : list cell) :
  sum_list ((λ v, count v l) <$> keep_first_by py_key [] l) = length l.
Proof.
  rewrite sum_list_count by apply NoDup_keep_first_by.
  rewrite filter_all; [done|]. intros x Hx.
  destruct (keep_first_by_represents py_key [] l x Hx) as (y & Hy & Heq);
    [apply not_elem_of_nil|].
  rewrite <- Heq. apply list_elem_of_fmap. by exists y.
Qed.

Lemma count_pos v (l : list cell) : v ∈ l → 1 ≤ count v l.
Proof.
  intros Hv. unfold count.
  assert (v ∈ filter (λ c, py_key c = py_key v) l) as Hin
    by (by apply list_elem_of_filter).
  destruct (filter _ l); [by apply elem_of_nil in Hin|simpl; lia].
Qed.

Lemma Qsum_proportions (f : cell → nat) (vs : list cell) (total : nat) :
  (Qsum ((λ v, proportion (f v) total) <$> vs)
   == inject_Z (Z.of_nat (sum_list (f <$> vs))) / inject_Z (Z.of_nat total))%Q.
Proof.
  induction vs as [|v vs IH]; csimpl.
  - unfold Qdiv. ring.
  - rewrite IH. unfold proportion. rewrite Qred_correct.
    rewrite Nat2Z.inj_add, inject_Z_plus. unfold Qdiv. ring.
Qed.

Lemma Qsum_Permutation (l l' : list Q) : l ≡ₚ l' → (Qsum l == Qsum l')%Q.
Proof.
  induction 1 as [|x l l' _ IH|x y l|l l' l'' _ IH1 _ IH2]; simpl.
  - reflexivity.
  - by rewrite IH.
  - ring.
  - by rewrite IH1.
Qed.

Lemma value_counts_inr cs counts :
  value_counts cs = inr counts →
  counts ≡ₚ (λ v, (v, count v (dropna cs))) <$> keep_first_by py_key [] (dropna cs).
Proof.
  unfold value_counts. destruct (forallb _ _); [|done]. intros [= <-].
  apply sort_by_Permutation.
Qed.

Lemma value_counts_normalized_inr cs rate :
  value_counts_normalized cs = inr rate →
  rate ≡ₚ (λ v, (v, proportion (count v (dropna cs)) (length (dropna cs))))
          <$> keep_first_by py_key [] (dropna cs).
Proof.
  unfold value_counts_normalized.
  destruct (value_counts cs) as [e|counts] eqn:Hc; [done|]. intros [= <-].
  apply value_counts_inr in Hc. rewrite Hc, <- list_fmap_compose. done.
Qed.

Lemma analyze_data_inr s s' t churn res :
  df s = Some t →
  col_index "Churn" t = Some churn →
  analyze_data s = (inr res, s') →
  value_counts_normalized (series churn t) = inr (churn_rate res)
  ∧ total_customers res = len t
  ∧ results s' = Some res
  ∧ files s' = files s.
Proof.
  intros Hdf Hchurn. rewrite analyze_data_run, Hdf, Hchurn.
  destruct (value_counts_normalized _) as [e|rate]; [done|].
  destruct (find_charge_col _) as [c|].
  - destruct (groupby_mean _ _) as [e|avg]; [done|]. by intros [= <- <-].
  - by intros [= <- <-].
Qed.

(** What [value_counts(normalize=True)] returns. *)
Lemma value_counts_normalized_spec cs rate :
  value_counts_normalized cs = inr rate →
  let present := dropna cs in
  (∀ i i' k k', rate.*1 !! i = Some k → rate.*1 !! i' = Some k' →
                py_equal k k' → i = i')
  ∧ (∀ k, k ∈ rate.*1 → k ∈ present)
  ∧ (∀ v, v ∈ present → ∃ k, k ∈ rate.*1 ∧ py_equal k v)
  ∧ (∀ k q, (k, q) ∈ rate →
            q = proportion (count k present) (length present))
  ∧ (present ≠ [] → (Qsum rate.*2 == 1)%Q).
Proof.
  intros Hrate%value_counts_normalized_inr present. fold present in Hrate.
  set (keys := keep_first_by py_key [] present) in *.
  assert (rate.*1 ≡ₚ keys) as Hkeys.
  { rewrite Hrate, <- list_fmap_compose. simpl. by rewrite list_fmap_id. }
  split; [|split; [|split; [|split]]].
  - assert (NoDup (py_key <$> rate.*1)) as Hnd.
    { rewrite Hkeys. apply NoDup_keep_first_by. }
    rewrite NoDup_alt in Hnd. intros i i' k k' Hk Hk' Heq%py_key_eq.
    apply (Hnd i i' (py_key k)); rewrite list_lookup_fmap;
      [by rewrite Hk|by rewrite Hk', Heq].
  - intros k Hk. rewrite Hkeys in Hk.
    by apply elem_of_keep_first_by in Hk as [Hk _].
  - intros v Hv.
    destruct (keep_first_by_represents py_key [] present v Hv) as (k & Hk & Heq);
      [apply not_elem_of_nil|].
    exists k. split; [by rewrite Hkeys|by apply py_key_eq].
  - intros k q Hkq. rewrite Hrate in Hkq.
    by apply list_elem_of_fmap in Hkq as (v & [= -> ->] & _).
  - intros Hne. rewrite (Qsum_Permutation _ _ (fmap_Permutation snd _ _ Hrate)).
    rewrite <- list_fmap_compose.
    rewrite (Qsum_proportions (λ v, count v present) _ (length present)).
    unfold keys. rewrite sum_list_count_keep_first.
    apply Qmult_inv_r. destruct present; [done|]. simpl length.
    rewrite Nat2Z.inj_succ. unfold Qeq; simpl. lia.
Qed.

(** C1, as amended: when [analyze_data] returns, the keys of [churn_rate]
    are the distinct labels of the "Churn" column that are not missing:
    no two keys are equal, every key is a label, and every label is equal
    to a key (labels are compared with Python's [==], which takes 1, 1.0
    and [True] for one label).  A key's value is the number of labels
    equal to it ([count]) over the number of labels that are not missing,
    which is the number of rows when none is missing; the values sum to 1
    as soon as one label is present, and the mapping is empty when none
    is. *)
Theorem analyze_data_churn_rate s s' t churn res :
  df s = Some t →
  col_index "Churn" t = Some churn →
  analyze_data s = (inr res, s') →
  let present := dropna (series churn t) in
  let keys := (churn_rate res).*1 in
  (∀ i i' k k', keys !! i = Some k → keys !! i' = Some k' →
                py_equal k k' → i = i')
  ∧ (∀ k, k ∈ keys → k ∈ present)
  ∧ (∀ v, v ∈ present → ∃ k, k ∈ keys ∧ py_equal k v)
  ∧ (∀ k q, (k, q) ∈ churn_rate res →
            q = proportion (count k present) (length present))
  ∧ (present ≠ [] → (Qsum (churn_rate res).*2 == 1)%Q)
  ∧ (present = [] → churn_rate res = [])
  ∧ (Forall (λ c, isnull c = false) (series churn t) → length present = len t).
Proof.
  intros Hdf Hchurn Hrun present keys.
  destruct (analyze_data_inr _ _ _ _ _ Hdf Hchurn Hrun) as (Hrate & _).
  destruct (value_counts_normalized_spec _ _ Hrate) as (H1 & H2 & H3 & H4 & H5).
  split; [done|]. split; [done|]. split; [done|]. split; [done|].
  split; [done|]. split.
  - intros Hnil. destruct (churn_rate res) as [|[k q] rate]; [done|].
    specialize (H2 k). fold present in H2. rewrite Hnil in H2.
    exfalso. eapply not_elem_of_nil, H2. left.
  - intros Hall. unfold present, dropna, len.
    rewrite filter_all; [unfold series; by rewrite length_fmap|].
    intros c Hc. rewrite Forall_forall in Hall. by apply Hall.
Qed.

(** *** The charge column in the analysis *)


Lemma plot_churn_run s :
  plot_churn savefig s =
  match df s with
  | None => (inl TypeError, s)
  | Some t =>
      match col_index "Churn" t with
      | None => (inl KeyError, s)
      | Some churn =>
          match value_counts (series churn t) with
          | inl e => (inl e, s)
          | inr counts =>
              match savefig counts with
              | inl e => (inl e, s)
              | inr img => (inr img, s)
              end
          end
      end
  end.
Proof.
  unfold plot_churn, mbind, M_bind, bind, get_df. simpl.
  destruct (df s) as [t|]; [|done].
  destruct (col_index "Churn" t); [|done].
  destruct (value_counts _); [done|]. simpl.
  by destruct (savefig _).
Qed.

Lemma generate_report_run output_html s :
  generate_report savefig output_html s =
  match plot_churn savefig s with
  | (inl e, _) => (inl e, s)
  | (inr img, _) =>
      match results s with
      | None => (inl KeyError, s)
      | Some r =>
          (inr tt,
           {| raw_data := raw_data s; df := df s; results := results s;
              stdout := stdout s ++ [OkReport output_html];
              files := (output_html,
                        {| doc_total := total_customers r;
                           doc_churn_rate := churn_rate r;
                           doc_avg_charges := avg_charges r;
                           doc_image := img |}) :: files s |})
      end
  end.
Proof.
  unfold generate_report, mbind, M_bind, bind.
  rewrite plot_churn_run. destruct (df s) as [t|] eqn:Hdf; [|done].
  destruct (col_index "Churn" t); [|done].
  destruct (value_counts _); [done|].
  destruct (savefig _) as [e|img]; [done|]. simpl.
  unfold get_results. destruct (results s) as [r|] eqn:Hres; [|done].
  unfold write_file, print, add_stdout. simpl. by rewrite Hdf, Hres.
Qed.


(** ** load_data and run_and_report *)

Lemma load_data_inl url file_path s e :
  load_outcome get_json read_json url file_path = inl e →
  load_data get_json read_json url file_path s
  = (inr tt, {| raw_data := None; df := df s; results := results s;
                stdout := stdout s ++ [ErrorLoading e]; files := files s |}).
Proof.
  unfold load_outcome, load_data, try_except, mbind, M_bind, bind.
  destruct (truthy url) as [u|].
  - intros ->. done.
  - destruct (truthy file_path) as [p|].
    + intros ->. done.
    + intros [= <-]. done.
Qed.

Lemma load_data_inr url file_path s raw :
  load_outcome get_json read_json url file_path = inr raw →
  ∃ m, load_data get_json read_json url file_path s
       = (inr tt, {| raw_data := Some raw; df := df s; results := results s;
                     stdout := stdout s ++ [m]; files := files s |}).
Proof.
  unfold load_outcome, load_data, try_except, mbind, M_bind, bind.
  destruct (truthy url) as [u|].
  - intros ->. by eexists.
  - destruct (truthy file_path) as [p|]; [|done].
    intros ->. by eexists.
Qed.

Lemma load_data_ok url file_path s :
  ∃ s0, load_data get_json read_json url file_path s = (inr tt, s0)
        ∧ files s0 = files s
        ∧ raw_data s0 = match load_outcome get_json read_json url file_path with
                        | inr raw => Some raw
                        | inl _ => None
                        end.
Proof.
  destruct (load_outcome get_json read_json url file_path) as [e|raw] eqn:Hout.
  - rewrite (load_data_inl _ _ _ _ Hout). by eexists.
  - destruct (load_data_inr _ _ s _ Hout) as (m & ->). by eexists.
Qed.

Lemma clean_data_files s : files (clean_data float_str s).2 = files s.
Proof.
  rewrite clean_data_run. destruct (raw_data s); [|done]. simpl.
  by destruct (drop_duplicates _).
Qed.

Lemma clean_data_names s s' raw out :
  raw_data s = Some raw →
  clean_data float_str s = (inr tt, s') →
  df s' = Some out →
  names out = names raw.
Proof.
  intros Hraw Hrun Hout.
  destruct (clean_data_inr _ _ _ Hraw Hrun) as (d & Hd & Hdf).
  rewrite Hout in Hdf. injection Hdf as ->.
  apply drop_duplicates_inr in Hd as (Hc & _).
  rewrite fill_frame. unfold names; simpl. rewrite Hc.
  apply stringify_nested_names.
Qed.

Lemma create_daily_column_files days s :
  files (create_daily_column days s).2 = files s.
Proof.
  rewrite create_daily_column_run. destruct (df s) as [t|]; [|done].
  destruct (col_index _ t); [|done]. by destruct (truediv _ _ _).
Qed.

Lemma names_set_column name dt cs t x :
  x ∈ names (set_column name dt cs t) → x = name ∨ x ∈ names t.
Proof.
  unfold names, set_column. destruct (col_index name t) as [k|]; simpl.
  - rewrite list_fmap_insert. simpl. intros Hx.
    apply list_elem_of_lookup in Hx as (i & Hi).
    destruct (decide (i = k)) as [->|Hne].
    + apply list_lookup_insert_Some in Hi as [(_ & <- & _)|(? & _)]; [by left|done].
    + rewrite list_lookup_insert_ne in Hi by done. right.
      by eapply list_elem_of_lookup_2.
  - rewrite fmap_app, elem_of_app. simpl. rewrite list_elem_of_singleton. tauto.
Qed.

Lemma create_daily_column_names days s t t' x :
  df s = Some t →
  df (create_daily_column days s).2 = Some t' →
  x ∈ names t' → x = "DailyCharges" ∨ x ∈ names t.
Proof.
  intros Hdf. rewrite create_daily_column_run, Hdf.
  destruct (col_index _ t); [|simpl; rewrite Hdf; intros [= <-]; by right].
  destruct (truediv _ _ _); simpl; [rewrite Hdf; intros [= <-]; by right|].
  intros [= <-]. apply names_set_column.
Qed.

Lemma analyze_data_files s : files (analyze_data s).2 = files s.
Proof.
  rewrite analyze_data_run. destruct (df s) as [t|]; [|done].
  destruct (col_index _ t); [|done].
  destruct (value_counts_normalized _); [done|].
  destruct (find_charge_col _); [|done]. by destruct (groupby_mean _ _).
Qed.

(** [run_and_report], stage by stage. *)
Lemma run_and_report_run url file_path output_html days s :
  run_and_report float_str get_json read_json savefig url file_path output_html days s =
  let s0 := (load_data get_json read_json url file_path s).2 in
  match clean_data float_str s0 with
  | (inl e, s1) => (inl e, s1)
  | (inr _, s1) =>
      match df s1 with
      | None => (inl AttributeError, s1)
      | Some t =>
          match create_daily_column days (add_stdout [DebugColumns (names t)] s1) with
          | (inl e, s3) => (inl e, s3)
          | (inr _, s3) =>
              match analyze_data s3 with
              | (inl e, s4) => (inl e, s4)
              | (inr _, s4) => generate_report savefig output_html s4
              end
          end
      end
  end.
Proof.
  unfold run_and_report, mbind, M_bind, bind.
  destruct (load_data_ok url file_path s) as (s0 & -> & _). simpl.
  destruct (clean_data float_str s0) as [[e|[]] s1]; [done|].
  simpl. destruct (df s1) as [t|]; done.
Qed.

Lemma create_daily_column_df days s t :
  df s = Some t → ∃ t', df (create_daily_column days s).2 = Some t'.
Proof.
  intros Hdf. rewrite create_daily_column_run, Hdf.
  destruct (col_index _ t); [|by exists t].
  destruct (truediv _ _ _); [by exists t|]. by eexists.
Qed.

Lemma analyze_data_no_churn s t :
  df s = Some t → "Churn" ∉ names t → analyze_data s = (inl KeyError, s).
Proof.
  intros Hdf Hn. apply col_index_None in Hn.
  by rewrite analyze_data_run, Hdf, Hn.
Qed.

(** C2: on a table, [analyze_data] raises [KeyError] exactly when no column
    is named "Churn"; [generate_report] is then not run, and a run whose
    loaded table has no such column ends with an exception without writing
    any file. *)
Theorem analyze_data_schema_error url file_path output_html days s0 s t :
  df s = Some t →
  ((analyze_data s).1 = inl KeyError ↔ "Churn" ∉ names t)
  ∧ ("Churn" ∉ names t →
       (analyze_data;; generate_report savefig output_html) s = (inl KeyError, s))
  ∧ ((∀ raw, load_outcome get_json read_json url file_path = inr raw → "Churn" ∉ names raw) →
       ∃ e s', run_and_report float_str get_json read_json savefig
                 url file_path output_html days s0 = (inl e, s')
               ∧ files s' = files s0).
Proof.
  intros Hdf. split; [|split].
  - split.
    + rewrite analyze_data_run, Hdf.
      destruct (col_index "Churn" t) as [churn|] eqn:Hc;
        [|intros _; by apply col_index_None].
      destruct (value_counts_normalized _) as [e|rate] eqn:Hr.
      { apply value_counts_normalized_inl in Hr as ->. done. }
      destruct (find_charge_col _); [|done].
      destruct (groupby_mean _ _) as [e|avg] eqn:Hg; [|done].
      apply groupby_mean_inl in Hg as ->. done.
    + intros Hn. by rewrite (analyze_data_no_churn _ _ Hdf Hn).
  - intros Hn. unfold mbind, M_bind, bind.
    by rewrite (analyze_data_no_churn _ _ Hdf Hn).
  - intros Hraw. rewrite run_and_report_run.
    destruct (load_data_ok url file_path s0) as (s1 & -> & Hf1 & Hr1). simpl.
    pose proof (clean_data_files s1) as Hf2.
    destruct (clean_data float_str s1) as [[e|[]] s2] eqn:Hclean; simpl in Hf2.
    { exists e, s2. split; [done|congruence]. }
    destruct (df s2) as [t2|] eqn:Hdf2.
    2:{ exists AttributeError, s2. split; [done|congruence]. }
    destruct (load_outcome get_json read_json url file_path) as [e|raw] eqn:Hout.
    { rewrite clean_data_run, Hr1 in Hclean. done. }
    pose proof (clean_data_names _ _ _ _ Hr1 Hclean Hdf2) as Hnames.
    set (s3 := add_stdout [DebugColumns (names t2)] s2).
    pose proof (create_daily_column_files days s3) as Hf3.
    destruct (create_daily_column_df days s3 t2 Hdf2) as (t4 & Hdf4).
    pose proof (create_daily_column_names days s3 t2 t4) as Hn4.
    destruct (create_daily_column days s3) as [[e|[]] s4]; simpl in *.
    { exists e, s4. split; [done|congruence]. }
    rewrite (analyze_data_no_churn s4 t4 Hdf4).
    + exists KeyError, s4. split; [done|congruence].
    + intros Hin. destruct (Hn4 "Churn" Hdf2 Hdf4 Hin) as [?|Hin']; [done|].
      rewrite Hnames in Hin'. by apply (Hraw raw).
Qed.

(** C4, as amended: when neither a URL nor a path is given, or the fetch
    or the parse raises, [load_data] does not raise: it prints the error,
    leaves [raw_data] unset and returns.  [run_and_report] then stops in
    [clean_data] with an [AttributeError], and no file is written. *)
Theorem load_data_failure url file_path output_html days s e :
  (truthy url = None ∧ truthy file_path = None ∧ e = ValueError)
  ∨ (∃ u, truthy url = Some u ∧ get_json u = inl e)
  ∨ (∃ p, truthy url = None ∧ truthy file_path = Some p ∧ read_json p = inl e) →
  load_data get_json read_json url file_path s
  = (inr tt, {| raw_data := None; df := df s; results := results s;
                stdout := stdout s ++ [ErrorLoading e]; files := files s |})
  ∧ ∃ s', run_and_report float_str get_json read_json savefig
            url file_path output_html days s = (inl AttributeError, s')
          ∧ files s' = files s.
Proof.
  intros Hfail.
  assert (load_outcome get_json read_json url file_path = inl e) as Hout.
  { unfold load_outcome.
    destruct Hfail as [(-> & -> & ->)|[(u & -> & Hu)|(p & -> & -> & Hp)]]; done. }
  split; [by apply load_data_inl|].
  rewrite run_and_report_run, (load_data_inl _ _ _ _ Hout). cbv zeta. cbn [snd].
  rewrite clean_data_run. simpl. by eexists.
Qed.

(** * Further properties of the methods *)

(** ** load_data *)

(** X1: [load_data] never raises.  It prints one line and changes nothing
    but [raw_data], which becomes the frame loaded or, on any failure,
    [None]: a failed load discards a table loaded before. *)
Theorem load_data_never_raises url file_path s :
  ∃ s' m,
    load_data get_json read_json url file_path s = (inr tt, s')
    ∧ df s' = df s ∧ results s' = results s ∧ files s' = files s
    ∧ stdout s' = stdout s ++ [m]
    ∧ raw_data s' = match load_outcome get_json read_json url file_path with
                    | inr raw => Some raw
                    | inl _ => None
                    end
    ∧ m = match load_outcome get_json read_json url file_path with
          | inr raw => match truthy url with
                       | Some _ => OkLoadedUrl (len raw)
                       | None => OkLoadedFile (len raw)
                       end
          | inl e => ErrorLoading e
          end.
Proof.
  unfold load_outcome, load_data, try_except, mbind, M_bind, bind.
  destruct (truthy url) as [u|].
  - destruct (get_json u) as [e|raw]; simpl; by eexists _, _.
  - destruct (truthy file_path) as [p|]; simpl; [|by eexists _, _].
    destruct (read_json p) as [e|raw]; simpl; by eexists _, _.
Qed.

(** X2: a URL that is a non-empty string wins: the file path, and whatever
    the file holds, play no part.  An empty URL counts as no URL. *)
Theorem load_data_url_first url u file_path s :
  truthy url = Some u →
  (∀ file_path' (read_json' : string → exn + DataFrame),
     load_data get_json read_json url file_path s
     = load_data get_json read_json' url file_path' s)
  ∧ load_data get_json read_json (Some "") file_path s
    = load_data get_json read_json None file_path s.
Proof.
  intros Hu. split; [|reflexivity].
  intros file_path' read_json'.
  unfold load_data, try_except, mbind, M_bind, bind. by rewrite Hu.
Qed.

(** ** clean_data *)

Lemma forallb_false {A} (f : A → bool) (l : list A) :
  forallb f l = false ↔ ∃ x, x ∈ l ∧ f x = false.
Proof.
  induction l as [|y l IH]; simpl.
  - split; [done|]. intros (x & Hx & _). by apply elem_of_nil in Hx.
  - rewrite andb_false_iff, IH. split.
    + intros [Hy|(x & Hx & Hf)]; [exists y; split; [left|done]|].
      exists x. split; [by right|done].
    + intros (x & [->|Hx]%elem_of_cons & Hf); [by left|right; by exists x].
Qed.

Lemma drop_duplicates_inl t e :
  drop_duplicates t = inl e →
  e = TypeError ∧ columns t ≠ []
  ∧ ∃ (r : row) c, r ∈ rows t ∧ c ∈ r ∧ hashable c = false.
Proof.
  unfold drop_duplicates. case_bool_decide as He; [done|].
  destruct (forallb _ _) eqn:Hh; [done|]. intros [= <-].
  split; [done|]. split; [tauto|].
  apply forallb_false in Hh as (r & Hr & Hh).
  apply forallb_false in Hh as (c & Hc & Hh). by exists r, c.
Qed.

(** X3: when [clean_data] raises, the analyzer is as it was, prints
    aside; the exception is [AttributeError] when nothing is loaded, and
    otherwise [TypeError], caused by a cell that cannot be hashed (a list)
    in a column that holds no dict. *)
Theorem clean_data_raises s e s' :
  clean_data float_str s = (inl e, s') →
  df s' = df s ∧ raw_data s' = raw_data s
  ∧ results s' = results s ∧ files s' = files s
  ∧ ((e = AttributeError ∧ raw_data s = None)
     ∨ (e = TypeError
        ∧ ∃ raw (r : row) j c,
            raw_data s = Some raw ∧ r ∈ rows raw ∧ r !! j = Some c
            ∧ hashable c = false ∧ nested raw j = false)).
Proof.
  rewrite clean_data_run. destruct (raw_data s) as [raw|] eqn:Hraw.
  2:{ intros [= <- <-]. repeat (split; [done|]). by left. }
  simpl. destruct (drop_duplicates _) as [e'|d] eqn:Hd; [|done].
  intros [= <- <-]. simpl. repeat (split; [done|]). right.
  apply drop_duplicates_inl in Hd as (-> & _ & r' & c & Hr' & Hc & Hh).
  split; [done|].
  rewrite stringify_nested_frame in Hr'. simpl in Hr'.
  apply list_elem_of_fmap in Hr' as (r & -> & Hr).
  apply list_elem_of_lookup in Hc as (j & Hj).
  rewrite list_lookup_imap in Hj.
  destruct (r !! j) as [c0|] eqn:Hc0; simpl in Hj; [|done].
  injection Hj as <-. exists raw, r, j, c0.
  destruct (nested raw j); [done|]. done.
Qed.

(** X4: conversely, in a table with at least one column, one cell that
    cannot be hashed in a column holding no dict makes [clean_data] raise
    [TypeError]; no cleaned table is stored. *)
Theorem clean_data_unhashable s raw (r : row) j c :
  raw_data s = Some raw →
  columns raw ≠ [] →
  r ∈ rows raw → r !! j = Some c →
  hashable c = false → nested raw j = false →
  ∃ s', clean_data float_str s = (inl TypeError, s') ∧ df s' = df s.
Proof.
  intros Hraw Hcols Hr Hj Hh Hn. rewrite clean_data_run, Hraw. simpl.
  unfold drop_duplicates.
  rewrite bool_decide_eq_false_2.
  2:{ rewrite stringify_nested_frame. simpl. intros [Hc|Hrows].
      - apply (f_equal length) in Hc. rewrite length_imap in Hc.
        by destruct (columns raw).
      - apply fmap_nil_inv in Hrows. rewrite Hrows in Hr.
        by apply elem_of_nil in Hr. }
  assert (forallb (forallb hashable)
            (rows (stringify_nested float_str raw).1) = false) as ->;
    [|by eexists].
  apply forallb_false. rewrite stringify_nested_frame. simpl.
  eexists. split; [apply list_elem_of_fmap; by exists r|].
  apply forallb_false. exists c. split; [|done].
  apply list_elem_of_lookup. exists j.
  by rewrite list_lookup_imap, Hj, Hn.
Qed.

(** X5: cleaning never adds a row and never empties a table that has
    one; the line it prints gives the rows removed and the rows left, which
    add up to the rows of the raw table. *)
Theorem clean_data_row_counts s s' raw :
  raw_data s = Some raw →
  clean_data float_str s = (inr tt, s') →
  ∃ out, df s' = Some out
    ∧ len out ≤ len raw
    ∧ (len raw ≠ 0 → len out ≠ 0)
    ∧ stdout s' = stdout s ++ (stringify_nested float_str raw).2
                  ++ [OkDuplicates (len raw - len out) (len out); OkClean].
Proof.
  intros Hraw. rewrite clean_data_run, Hraw. simpl.
  destruct (drop_duplicates _) as [e|d] eqn:Hd; [done|].
  intros [= <-]. simpl. eexists. split; [done|].
  assert (len (stringify_nested float_str raw).1 = len raw) as HlenS.
  { unfold len. rewrite stringify_nested_frame. simpl. apply length_fmap. }
  assert (len (fill_numeric (fill_text d)) = len d) as Hlenf.
  { unfold len. rewrite fill_frame. simpl. apply length_fmap. }
  rewrite Hlenf, <- HlenS.
  split; [|split; [|done]].
  - apply drop_duplicates_inr in Hd as (_ & Hsub & _).
    unfold len. by apply sublist_length.
  - unfold drop_duplicates in Hd. unfold len.
    case_bool_decide; [by injection Hd as <-|].
    destruct (forallb _ _); [|done]. injection Hd as <-. simpl.
    destruct (rows _) as [|r rs]; [done|]. simpl. done.
Qed.

Lemma length_imap_cells {B} (f : nat → cell → B) (r : row) :
  length (imap f r) = length r.
Proof. apply length_imap. Qed.

(** X6: cleaning keeps the table well formed: every cleaned row still has
    one cell per column. *)
Theorem clean_data_well_formed s s' raw out :
  raw_data s = Some raw →
  clean_data float_str s = (inr tt, s') →
  df s' = Some out →
  well_formed raw → well_formed out.
Proof.
  intros Hraw Hrun Hout Hwf. unfold well_formed in *.
  rewrite (clean_data_columns_length _ _ _ _ Hraw Hrun Hout).
  rewrite Forall_forall in Hwf |- *. intros r' Hr'.
  destruct (clean_data_row _ _ _ _ _ Hraw Hrun Hout Hr') as (r & Hr & ->).
  rewrite length_imap. by apply Hwf.
Qed.

(** X7: in a column that held a dict, every cell of the cleaned table is
    text: what [str] gives for the raw cell, missing values included. *)
Theorem clean_data_nested_text s s' raw out (r' : row) :
  raw_data s = Some raw →
  clean_data float_str s = (inr tt, s') →
  df s' = Some out →
  r' ∈ rows out →
  ∃ r : row, r ∈ rows raw ∧ length r' = length r ∧
    ∀ j c, nested raw j = true → r !! j = Some c →
           r' !! j = Some (CStr (py_str float_str c)).
Proof.
  intros Hraw Hrun Hout Hr'.
  destruct (clean_data_row _ _ _ _ _ Hraw Hrun Hout Hr') as (r & Hr & ->).
  exists r. split; [done|]. split; [apply length_imap|].
  intros j c Hn Hc. by rewrite list_lookup_imap, Hc, Hn.
Qed.

Lemma filled_cell_present dt c : isnull c = false → filled_cell dt c = c.
Proof. intros Hc. unfold filled_cell. by rewrite Hc. Qed.

(** X8: on a raw table with at least one column and no missing value the
    cleaned table has no two equal rows, and cleaning it again gives the
    same table. *)
Theorem clean_data_without_missing s s' raw out s2 :
  raw_data s = Some raw →
  clean_data float_str s = (inr tt, s') →
  df s' = Some out →
  columns raw ≠ [] →
  Forall (Forall (λ c, isnull c = false)) (rows raw) →
  raw_data s2 = Some out →
  NoDup (rows out)
  ∧ ∃ s2', clean_data float_str s2 = (inr tt, s2') ∧ df s2' = Some out.
Proof.
  intros Hraw Hrun Hout Hcols Hpresent Hraw2.
  destruct (clean_data_inr _ _ _ Hraw Hrun) as (d & Hd & Hdf).
  rewrite Hout in Hdf. injection Hdf as Hdf.
  pose proof (drop_duplicates_inr _ _ Hd) as (Hc & Hsub & Hrows & _).
  assert (rows out = rows d) as Hsame.
  { rewrite Hdf, fill_frame. simpl. apply list_fmap_id_on. intros rd Hrd.
    apply (elem_of_sublist _ _ _ Hrd) in Hsub.
    rewrite stringify_nested_frame in Hsub. simpl in Hsub.
    apply list_elem_of_fmap in Hsub as (r & -> & Hr).
    rewrite Forall_forall in Hpresent. specialize (Hpresent _ Hr).
    rewrite Forall_lookup in Hpresent.
    apply list_eq; intros j. rewrite !list_lookup_imap.
    destruct (r !! j) as [c|] eqn:Hj; simpl; [|done]. f_equal.
    apply filled_cell_present.
    destruct (nested raw j); [done|]. by apply (Hpresent j). }
  assert (columns out = columns (stringify_nested float_str raw).1) as Hcols'.
  { by rewrite Hdf, fill_frame. }
  assert (NoDup (row_key (length (columns out)) <$> rows out)) as Hnd.
  { rewrite Hsame, Hrows, Hcols'; [apply NoDup_keep_first_by|].
    intros Hnil. apply (f_equal length) in Hnil.
    rewrite stringify_nested_columns_length in Hnil. by destruct (columns raw). }
  split; [by eapply NoDup_fmap_1|].
  destruct (clean_data_hashable _ _ _ _ Hraw Hrun Hout) as (out2 & Hdd).
  apply distinct_rows_NoDup in Hnd.
  pose proof (drop_duplicates_NoDup _ _ Hdd Hnd) as ->.
  destruct (clean_data_total s2 out out Hraw2) as (s2' & Hrun2 & Hdf2).
  { rewrite stringify_nested_id; [done|].
    intros j. by apply (clean_data_no_dict s s' raw). }
  exists s2'. split; [done|]. rewrite Hdf2. f_equal.
  apply (fill_filled d); [by rewrite Hdf, fill_frame|by rewrite <- Hdf].
Qed.

(** ** create_daily_column *)

(** X9: when [create_daily_column] raises, the analyzer is exactly as it
    was.  The exception is [AttributeError] without a working table;
    [TypeError] when a cell of "MonthlyCharges" is neither a number nor
    missing; and [ZeroDivisionError] only for a divisor equal to zero on a
    "MonthlyCharges" column of dtype object, which Python divides cell by
    cell. *)
Theorem create_daily_column_raises days s e s' :
  create_daily_column days s = (inl e, s') →
  s' = s
  ∧ ((e = AttributeError ∧ df s = None)
     ∨ ∃ t j, df s = Some t ∧ col_index "MonthlyCharges" t = Some j
         ∧ ((e = TypeError
             ∧ ∃ c, c ∈ series j t ∧ isnull c = false ∧ is_number c = false)
            ∨ (e = ZeroDivisionError ∧ (days == 0)%Q
               ∧ dtype_at j t = Some DObject
               ∧ ∃ c, c ∈ series j t ∧ (is_number c = true ∨ c = CNull)))).
Proof.
  rewrite create_daily_column_run. destruct (df s) as [t|] eqn:Hdf.
  2:{ intros [= <- <-]. split; [done|]. by left. }
  destruct (col_index "MonthlyCharges" t) as [j|] eqn:Hj; [|done].
  destruct (truediv _ _ _) as [e'|daily] eqn:Ht; [|done].
  intros [= <- <-]. split; [done|]. right. exists t, j.
  split; [done|]. split; [done|]. by apply truediv_inl in Ht.
Qed.

(** X10: conversely, one cell of "MonthlyCharges" holding text, a dict or
    a list makes [create_daily_column] raise, whatever the other cells
    hold, and nothing is changed.  The exception is [TypeError] for a
    divisor that is not zero; for a divisor equal to zero it is
    [TypeError] or [ZeroDivisionError]. *)
Theorem create_daily_column_text days s t j c :
  df s = Some t →
  col_index "MonthlyCharges" t = Some j →
  c ∈ series j t →
  isnull c = false → is_number c = false →
  ∃ e, create_daily_column days s = (inl e, s)
       ∧ (e = TypeError ∨ (e = ZeroDivisionError ∧ (days == 0)%Q))
       ∧ (¬ (days == 0)%Q → e = TypeError).
Proof.
  intros Hdf Hj Hc Hnull Hnum. rewrite create_daily_column_run, Hdf, Hj.
  destruct (truediv_text (dtype_at j t) days _ _ Hc Hnull Hnum) as (e & Ht).
  rewrite Ht. exists e. split; [done|].
  apply truediv_inl in Ht as [(-> & _)|(-> & Hd & _)].
  - split; [by left|done].
  - split; [by right|]. intros Hne. by destruct Hne.
Qed.


(** X25: with a divisor equal to zero, a "MonthlyCharges" column of dtype
    object whose first cell is a number makes the call raise
    [ZeroDivisionError], whatever the other cells hold; nothing is
    changed. *)
Theorem create_daily_column_zero_division days s t j (r : row) :
  df s = Some t →
  (days == 0)%Q →
  col_index "MonthlyCharges" t = Some j →
  dtype_at j t = Some DObject →
  rows t !! 0 = Some r →
  is_number (cell_at j r) = true →
  create_daily_column days s = (inl ZeroDivisionError, s).
Proof.
  intros Hdf Hdays%Qeq_bool_iff Hj Hdt Hr Hnum.
  rewrite create_daily_column_run, Hdf, Hj, Hdt.
  unfold series. destruct (rows t) as [|r0 rs]; [done|].
  injection Hr as ->. csimpl.
  assert (py_truediv days (cell_at j r) = inl ZeroDivisionError) as ->; [|done].
  unfold py_truediv. destruct (cell_at j r); try done; by rewrite Hdays.
Qed.

(** X11: a successful call on a table with "MonthlyCharges" leaves the
    column names as they are when "DailyCharges" is one of them, and
    otherwise appends "DailyCharges" as the last column. *)
Theorem create_daily_column_names_after days s s' t j :
  df s = Some t →
  col_index "MonthlyCharges" t = Some j →
  create_daily_column days s = (inr tt, s') →
  ∃ t', df s' = Some t'
    ∧ ("DailyCharges" ∈ names t → names t' = names t)
    ∧ ("DailyCharges" ∉ names t → names t' = names t ++ ["DailyCharges"])
    ∧ stdout s' = stdout s ++ [OkDailyCreated].
Proof.
  intros Hdf Hj. rewrite create_daily_column_run, Hdf, Hj.
  destruct (truediv _ _ _) as [e|daily]; [done|]. intros [= <-]. simpl.
  eexists. split; [done|]. unfold names, set_column.
  destruct (col_index "DailyCharges" t) as [k|] eqn:Hk; simpl.
  - split; [|split; [|done]].
    + intros _. rewrite list_fmap_insert. simpl.
      apply col_index_Some in Hk as (dt & Hk & _).
      apply list_insert_id. by rewrite list_lookup_fmap, Hk.
    + intros Hn. apply col_index_None in Hn. congruence.
  - split; [|split; [|done]].
    + intros Hin. apply col_index_None in Hk. done.
    + intros _. by rewrite fmap_app.
Qed.

Lemma find_charge_col_app cols cols' c :
  find_charge_col cols = Some c → find_charge_col (cols ++ cols') = Some c.
Proof.
  rewrite !find_charge_col_Some. intros (i & Hi & Hc & Hfirst).
  assert (i < length cols) as Hlt by (by eapply lookup_lt_Some).
  exists i. split; [by rewrite lookup_app_l|]. split; [done|].
  intros i' c' Hi' Hlt'. rewrite lookup_app_l in Hi' by lia. by eapply Hfirst.
Qed.

(** X12: deriving the daily column never changes which column
    [analyze_data] takes for the charges: "DailyCharges" is appended
    behind "MonthlyCharges", which already passes the test. *)
Theorem create_daily_column_same_charge_col days s t :
  df s = Some t →
  ∃ t', df (create_daily_column days s).2 = Some t'
        ∧ find_charge_col (names t') = find_charge_col (names t).
Proof.
  intros Hdf. rewrite create_daily_column_run, Hdf.
  destruct (col_index "MonthlyCharges" t) as [j|] eqn:Hj; [|by exists t].
  destruct (truediv _ _ _) as [e|daily]; [by exists t|]. simpl.
  eexists. split; [done|]. unfold names, set_column.
  destruct (col_index "DailyCharges" t) as [k|] eqn:Hk; simpl.
  - rewrite list_fmap_insert. simpl.
    apply col_index_Some in Hk as (dt & Hk & _).
    rewrite list_insert_id; [done|]. by rewrite list_lookup_fmap, Hk.
  - rewrite fmap_app.
    destruct (find_charge_col (columns t).*1) as [c|] eqn:Hc;
      [by apply find_charge_col_app|].
    exfalso. rewrite find_charge_col_None in Hc.
    apply (Hc "MonthlyCharges"); [|by apply is_charge_name_spec].
    apply col_index_Some in Hj as (dt & Hj & _).
    apply list_elem_of_fmap. exists ("MonthlyCharges", dt).
    split; [done|]. by eapply list_elem_of_lookup_2.
Qed.

Lemma set_column_well_formed name dt cs t :
  well_formed t → well_formed (set_column name dt cs t).
Proof.
  unfold well_formed, set_column. rewrite !Forall_lookup. intros Hwf.
  destruct (col_index name t) as [k|]; simpl; intros i r' Hr';
    apply lookup_zip_with_Some in Hr' as (r & c & -> & Hr & _);
    specialize (Hwf i r Hr); simpl in Hwf.
  - by rewrite !length_insert.
  - rewrite !length_app. simpl. lia.
Qed.

(** X13: [create_daily_column] keeps the table well formed, whatever the
    outcome. *)
Theorem create_daily_column_well_formed days s t :
  df s = Some t →
  well_formed t →
  ∃ t', df (create_daily_column days s).2 = Some t' ∧ well_formed t'.
Proof.
  intros Hdf Hwf. rewrite create_daily_column_run, Hdf.
  destruct (col_index "MonthlyCharges" t) as [j|]; [|by exists t].
  destruct (truediv _ _ _) as [e|daily]; [by exists t|]. simpl.
  eexists. split; [done|]. by apply set_column_well_formed.
Qed.

Lemma set_column_series name dt cs t j :
  well_formed t → length cs = len t →
  j < length (columns t) → j ≠ target name t →
  series j (set_column name dt cs t) = series j t.
Proof.
  intros Hwf Hlen Hj Hne. apply list_eq; intros i.
  unfold series at 1. rewrite list_lookup_fmap.
  destruct (rows t !! i) as [r|] eqn:Hr.
  - destruct (lookup_lt_is_Some_2 cs i) as (c & Hc).
    { rewrite Hlen. by eapply lookup_lt_Some. }
    rewrite (set_column_row _ _ _ _ _ _ _ Hr Hc). simpl.
    rewrite set_column_cell_at_ne by (done || by eapply well_formed_row).
    symmetry. by apply series_lookup.
  - unfold series. rewrite list_lookup_fmap, Hr. simpl.
    apply lookup_ge_None in Hr.
    rewrite (proj2 (lookup_ge_None _ _)); [done|].
    fold (len (set_column name dt cs t)). by rewrite set_column_len.
Qed.

Lemma DataFrame_eq (a b : DataFrame) :
  columns a = columns b → rows a = rows b → a = b.
Proof. destruct a, b; simpl; congruence. Qed.

(** Assigning the same column twice is assigning it once. *)
Lemma set_column_twice name dt cs t :
  well_formed t → length cs = len t →
  set_column name dt cs (set_column name dt cs t) = set_column name dt cs t.
Proof.
  intros Hwf Hlen.
  pose proof (col_index_set_column name dt cs t) as Hk.
  pose proof Hk as (dt' & Hck & _)%col_index_Some.
  assert (dt' = dt) as ->.
  { unfold set_column, target in Hck.
    destruct (col_index name t) as [k|] eqn:Hkt; simpl in Hck.
    - rewrite list_lookup_insert_eq in Hck by (by eapply col_index_lt).
      congruence.
    - rewrite list_lookup_middle in Hck by done. congruence. }
  unfold set_column at 1. rewrite Hk.
  apply DataFrame_eq; simpl; [by apply list_insert_id|]. clear Hk Hck.
  apply list_eq; intros i. rewrite lookup_zip_with.
  destruct (rows t !! i) as [r|] eqn:Hr.
  - destruct (lookup_lt_is_Some_2 cs i) as (c & Hc).
    { rewrite Hlen. by eapply lookup_lt_Some. }
    rewrite (set_column_row _ _ _ _ _ _ _ Hr Hc), Hc. simpl. f_equal.
    apply list_insert_id.
    pose proof (set_column_cell_at name t r c (well_formed_row _ _ _ Hwf Hr)) as Hcell.
    unfold cell_at in Hcell.
    destruct (_ !! target name t) as [c'|] eqn:Hc'; simpl in Hcell; [congruence|].
    exfalso. apply lookup_ge_None in Hc'.
    pose proof (well_formed_row _ _ _ Hwf Hr) as Hlr.
    unfold target in Hc'. destruct (col_index name t) as [k|] eqn:Hkt; simpl in Hc'.
    + rewrite length_insert in Hc'. apply col_index_lt in Hkt. lia.
    + rewrite length_app in Hc'. simpl in Hc'. lia.
  - apply lookup_ge_None in Hr.
    assert (rows (set_column name dt cs t) !! i = None) as ->; [|done].
    apply lookup_ge_None. fold (len (set_column name dt cs t)).
    by rewrite set_column_len.
Qed.

Lemma col_index_set_column_other name name' dt cs t j :
  name ≠ name' →
  col_index name' t = Some j →
  col_index name' (set_column name dt cs t) = Some j
  ∧ columns (set_column name dt cs t) !! j = columns t !! j
  ∧ j ≠ target name t.
Proof.
  intros Hne Hj. pose proof (col_index_lt _ _ _ Hj) as Hlt.
  apply col_index_Some in Hj as (dt0 & Hj & Hfirst).
  assert (j ≠ target name t) as Hjt.
  { unfold target. destruct (col_index name t) as [k|] eqn:Hk; simpl; [|lia].
    apply col_index_Some in Hk as (dt' & Hk & _). intros <-. congruence. }
  assert (columns (set_column name dt cs t) !! j = columns t !! j) as Hsame.
  { unfold set_column, target in *.
    destruct (col_index name t) as [k|]; simpl in *.
    - by rewrite list_lookup_insert_ne.
    - by rewrite lookup_app_l. }
  split; [|done]. apply col_index_Some. exists dt0.
  split; [by rewrite Hsame|]. intros i c Hi Hij.
  unfold set_column in Hi.
  destruct (col_index name t) as [k|] eqn:Hk; simpl in Hi.
  - destruct (decide (i = k)) as [->|Hik].
    + rewrite list_lookup_insert_eq in Hi by (by eapply col_index_lt).
      injection Hi as <-. done.
    + rewrite list_lookup_insert_ne in Hi by done. by eapply Hfirst.
  - rewrite lookup_app_l in Hi by lia. by eapply Hfirst.
Qed.

(** X14: calling [create_daily_column] a second time with the same
    divisor succeeds again and leaves the table as the first call made
    it. *)
Theorem create_daily_column_again days s s1 t :
  df s = Some t →
  well_formed t →
  create_daily_column days s = (inr tt, s1) →
  ∃ s2, create_daily_column days s1 = (inr tt, s2) ∧ df s2 = df s1.
Proof.
  intros Hdf Hwf. rewrite create_daily_column_run, Hdf.
  destruct (col_index "MonthlyCharges" t) as [j|] eqn:Hj.
  2:{ intros [= <-]. exists s. split; [|done].
      by rewrite create_daily_column_run, Hdf, Hj. }
  destruct (truediv _ _ _) as [e|daily] eqn:Hdaily; [done|]. intros [= <-].
  pose proof (truediv_length _ _ _ _ Hdaily) as Hlen.
  unfold series in Hlen. rewrite length_fmap in Hlen.
  set (dt := match dtype_at j t with Some DObject => DObject | _ => DFloat end).
  destruct (col_index_set_column_other "DailyCharges" "MonthlyCharges"
              dt daily t j) as (Hj1 & Hcol1 & Hne); [done|done|].
  rewrite create_daily_column_run. simpl. rewrite Hj1.
  rewrite set_column_series
    by (done || by eapply col_index_lt).
  assert (dtype_at j (set_column "DailyCharges" dt daily t) = dtype_at j t) as ->.
  { unfold dtype_at. by rewrite Hcol1. }
  rewrite Hdaily. fold dt.
  eexists. split; [done|]. simpl. f_equal. by apply set_column_twice.
Qed.

(** ** analyze_data *)

(** X15: [analyze_data] either raises, with [AttributeError], [KeyError]
    or [TypeError], and then leaves the analyzer untouched (the results of
    an earlier analysis stay in place); or it returns the results it has
    stored, whose [total_customers] counts every row of the table, and
    changes neither a table nor a file. *)
Theorem analyze_data_outcome s :
  (∃ e, analyze_data s = (inl e, s)
        ∧ (e = AttributeError ∨ e = KeyError ∨ e = TypeError))
  ∨ (∃ res s' t, analyze_data s = (inr res, s')
        ∧ df s = Some t ∧ total_customers res = len t
        ∧ results s' = Some res
        ∧ df s' = df s ∧ raw_data s' = raw_data s ∧ files s' = files s).
Proof.
  rewrite analyze_data_run. destruct (df s) as [t|] eqn:Hdf.
  2:{ left. exists AttributeError. auto. }
  destruct (col_index "Churn" t) as [churn|].
  2:{ left. exists KeyError. auto. }
  destruct (value_counts_normalized _) as [e|rate] eqn:Hr.
  { apply value_counts_normalized_inl in Hr as ->. left. eauto. }
  destruct (find_charge_col _) as [c|].
  - destruct (groupby_mean _ _) as [e|avg] eqn:Hg.
    + apply groupby_mean_inl in Hg as ->. left. eauto.
    + right. eexists _, _, t. simpl. repeat split; done.
  - right. eexists _, _, t. simpl. repeat split; done.
Qed.

Lemma analyze_data_df s : df (analyze_data s).2 = df s.
Proof.
  rewrite analyze_data_run. destruct (df s) as [t|] eqn:Hdf; [|done].
  destruct (col_index _ t); [|done].
  destruct (value_counts_normalized _); [done|].
  destruct (find_charge_col _); [|done]. by destruct (groupby_mean _ _).
Qed.

Lemma value_counts_sum cs counts :
  value_counts cs = inr counts → sum_list counts.*2 = length (dropna cs).
Proof.
  intros Hc%value_counts_inr. rewrite Hc, <- list_fmap_compose.
  apply sum_list_count_keep_first.
Qed.

(** X16: the bar chart and [churn_rate] agree: after a successful analysis
    [plot_churn] draws the counts of the same labels in the same order,
    every bar is at least 1, each rate is its bar over the sum of the bars,
    and that sum is the number of labels that are not missing, at most
    [total_customers]. *)
Theorem plot_churn_matches_churn_rate s s' t churn res :
  df s = Some t →
  col_index "Churn" t = Some churn →
  analyze_data s = (inr res, s') →
  ∃ counts,
    plot_churn savefig s'
    = match savefig counts with
      | inl e => (inl e, s')
      | inr img => (inr img, s')
      end
    ∧ churn_rate res
      = (λ p : cell * nat, (p.1, proportion p.2 (sum_list counts.*2))) <$> counts
    ∧ Forall (λ p : cell * nat, 1 ≤ p.2) counts
    ∧ sum_list counts.*2 = length (dropna (series churn t))
    ∧ sum_list counts.*2 ≤ total_customers res.
Proof.
  intros Hdf Hchurn Hrun.
  destruct (analyze_data_inr _ _ _ _ _ Hdf Hchurn Hrun) as (Hrate & Htot & _).
  assert (df s' = Some t) as Hdf'.
  { pose proof (analyze_data_df s) as Hd. rewrite Hrun in Hd. simpl in Hd.
    congruence. }
  unfold value_counts_normalized in Hrate.
  destruct (value_counts (series churn t)) as [e|counts] eqn:Hcounts; [done|].
  injection Hrate as Hrate. exists counts.
  pose proof (value_counts_sum _ _ Hcounts) as Hsum.
  split; [by rewrite plot_churn_run, Hdf', Hchurn, Hcounts|].
  split; [by rewrite Hsum|]. split; [|split; [done|]].
  - apply value_counts_inr in Hcounts.
    apply Forall_forall. intros p Hp. rewrite Hcounts in Hp.
    apply list_elem_of_fmap in Hp as (v & -> & Hv). simpl.
    apply count_pos. by apply elem_of_keep_first_by in Hv as [Hv _].
  - rewrite Hsum, Htot. unfold dropna, len.
    etrans; [apply length_filter|]. unfold series. by rewrite length_fmap.
Qed.

Lemma proportion_bounds n total :
  1 ≤ n → n ≤ total → (0 < proportion n total ∧ proportion n total <= 1)%Q.
Proof.
  intros Hn Hle. unfold proportion. rewrite Qred_correct.
  assert (0 < inject_Z (Z.of_nat total))%Q as Htot.
  { rewrite <- (Zlt_Qlt 0). lia. }
  split.
  - apply Qlt_shift_div_l; [done|]. rewrite Qmult_0_l.
    rewrite <- (Zlt_Qlt 0). lia.
  - apply Qle_shift_div_r; [done|]. rewrite Qmult_1_l.
    rewrite <- Zle_Qle. lia.
Qed.

(** X17: every value of [churn_rate] is a proportion: greater than 0 and
    at most 1. *)
Theorem analyze_data_churn_rate_bounds s s' t churn res v q :
  df s = Some t →
  col_index "Churn" t = Some churn →
  analyze_data s = (inr res, s') →
  (v, q) ∈ churn_rate res →
  (0 < q ∧ q <= 1)%Q.
Proof.
  intros Hdf Hchurn Hrun Hvq.
  destruct (analyze_data_inr _ _ _ _ _ Hdf Hchurn Hrun) as (Hrate & _).
  apply value_counts_normalized_inr in Hrate. rewrite Hrate in Hvq.
  apply list_elem_of_fmap in Hvq as (v' & [= -> ->] & Hv).
  apply elem_of_keep_first_by in Hv as [Hv _].
  apply proportion_bounds; [by apply count_pos|apply length_filter].
Qed.

Lemma traverse_keys {K V} (g : K → exn + V) (l : list K) (ys : list (K * V)) :
  traverse (λ k, match g k with
                 | inl e => inl e
                 | inr m => inr (k, m)
                 end) l = inr ys →
  ys.*1 = l.
Proof.
  revert ys. induction l as [|k l IH]; intros ys; simpl.
  - by intros [= <-].
  - destruct (g k) as [e|m]; [done|].
    destruct (traverse _ l) as [e|ys'] eqn:Hys; [done|]. intros [= <-].
    csimpl. f_equal. by apply IH.
Qed.

Lemma dropna_zip (keys vals : list cell) :
  length keys = length vals →
  (filter (λ p : cell * cell, isnull p.1 = false) (zip keys vals)).*1
  = dropna keys.
Proof.
  revert vals. induction keys as [|k keys IH]; intros [|v vals] Hlen;
    simpl in Hlen; try done.
  change (zip (k :: keys) (v :: vals)) with ((k, v) :: zip keys vals).
  unfold dropna. rewrite !filter_cons. simpl.
  destruct (decide (isnull k = false)); csimpl; [f_equal|]; apply IH; lia.
Qed.

(** X18: when a charge column is found and the analysis returns,
    [avg_charges] has exactly the keys of [churn_rate], each once: one
    label for each group of equal labels that are not missing.  The two
    mappings need not list them in the same order: [avg_charges] has the
    first label of each group, sorted as [groupby] sorts its keys. *)
Theorem analyze_data_same_keys s s' t churn c res :
  df s = Some t →
  col_index "Churn" t = Some churn →
  find_charge_col (names t) = Some c →
  analyze_data s = (inr res, s') →
  (avg_charges res).*1 ≡ₚ (churn_rate res).*1
  ∧ (avg_charges res).*1
    = sort_by cell_leb (keep_first_by py_key [] (dropna (series churn t))).
Proof.
  intros Hdf Hchurn Hc. rewrite analyze_data_run, Hdf, Hchurn, Hc.
  destruct (value_counts_normalized _) as [e|rate] eqn:Hrate; [done|].
  destruct (groupby_mean _ _) as [e|avg] eqn:Havg; [done|].
  intros [= <- _]. simpl.
  apply value_counts_normalized_inr in Hrate.
  unfold groupby_mean in Havg. destruct (forallb _ _); [|done].
  apply traverse_keys in Havg. rewrite dropna_zip in Havg
    by (unfold series; by rewrite !length_fmap).
  split; [|done].
  rewrite Havg, sort_by_Permutation, Hrate, <- list_fmap_compose. simpl.
  by rewrite list_fmap_id.
Qed.

Lemma mean_text (cs : list cell) v :
  v ∈ cs → isnull v = false → is_number v = false → mean cs = inl TypeError.
Proof.
  intros Hv Hnull Hnum. unfold mean.
  assert (forallb is_number (dropna cs) = false) as ->; [|done].
  apply forallb_false. exists v. split; [|done]. by apply list_elem_of_filter.
Qed.

(** X19: a charge column that holds text in a row whose label is not
    missing makes [analyze_data] raise [TypeError]: nothing is stored,
    not even [churn_rate]. *)
Theorem analyze_data_text_charges s t churn c j i (r : row) :
  df s = Some t →
  col_index "Churn" t = Some churn →
  find_charge_col (names t) = Some c →
  col_index c t = Some j →
  rows t !! i = Some r →
  isnull (cell_at churn r) = false →
  isnull (cell_at j r) = false →
  is_number (cell_at j r) = false →
  analyze_data s = (inl TypeError, s).
Proof.
  intros Hdf Hchurn Hc Hj Hr Hlabel Hnull Hnum.
  rewrite analyze_data_run, Hdf, Hchurn, Hc, Hj. simpl.
  destruct (value_counts_normalized _) as [e|rate] eqn:Hrate.
  { by apply value_counts_normalized_inl in Hrate as ->. }
  destruct (groupby_mean _ _) as [e|avg] eqn:Havg.
  { by apply groupby_mean_inl in Havg as ->. }
  exfalso. unfold groupby_mean in Havg.
  destruct (forallb _ _); [|done].
  set (pairs := filter (λ p : cell * cell, isnull p.1 = false)
                  (zip (series churn t) (series j t))) in *.
  assert ((cell_at churn r, cell_at j r) ∈ pairs) as Hin.
  { apply list_elem_of_filter. split; [done|].
    apply list_elem_of_lookup. exists i.
    apply lookup_zip_with_Some. eexists _, _.
    split; [done|]. split; by apply series_lookup. }
  destruct (keep_first_by_represents py_key [] pairs.*1 (cell_at churn r))
    as (k & Hk & Hkey); [|apply not_elem_of_nil|].
  { apply list_elem_of_fmap. by exists (cell_at churn r, cell_at j r). }
  destruct (traverse_fails
              (λ k, match mean (filter (λ p : cell * cell,
                                          py_key p.1 = py_key k) pairs).*2 with
                    | inl e => inl e
                    | inr m => inr (k, m)
                    end)
              (sort_by cell_leb (keep_first_by py_key [] pairs.*1)) k TypeError)
    as (e' & He').
  - by rewrite sort_by_Permutation.
  - rewrite (mean_text _ (cell_at j r)); [done| |done|done].
    apply list_elem_of_fmap. exists (cell_at churn r, cell_at j r).
    split; [done|]. by apply list_elem_of_filter.
  - congruence.
Qed.

(** ** generate_report and run_and_report *)


Lemma analyze_data_success s res s' :
  analyze_data s = (inr res, s') →
  ∃ t, df s' = Some t ∧ results s' = Some res
       ∧ total_customers res = len t ∧ files s' = files s.
Proof.
  rewrite analyze_data_run. destruct (df s) as [t|] eqn:Hdf; [|done].
  destruct (col_index _ t); [|done].
  destruct (value_counts_normalized _); [done|].
  destruct (find_charge_col _).
  - destruct (groupby_mean _ _); [done|]. intros [= <- <-]. by exists t.
  - intros [= <- <-]. by exists t.
Qed.

(** X21: a run writes all or nothing: either it ends with an exception
    and the files are as before, or it returns after writing exactly one
    document, at [output_html], whose total is the number of rows of the
    final table and whose mappings are those of the stored results. *)
Theorem run_and_report_outcome url file_path output_html days s :
  (∃ e s', run_and_report float_str get_json read_json savefig
             url file_path output_html days s = (inl e, s')
           ∧ files s' = files s)
  ∨ (∃ s' t r img,
       run_and_report float_str get_json read_json savefig
         url file_path output_html days s = (inr tt, s')
       ∧ df s' = Some t ∧ results s' = Some r
       ∧ total_customers r = len t
       ∧ files s' = (output_html,
                     {| doc_total := len t;
                        doc_churn_rate := churn_rate r;
                        doc_avg_charges := avg_charges r;
                        doc_image := img |}) :: files s).
Proof.
  rewrite run_and_report_run.
  destruct (load_data_ok url file_path s) as (s1 & -> & Hf1 & _). simpl.
  pose proof (clean_data_files s1) as Hf2.
  destruct (clean_data float_str s1) as [[e|[]] s2]; simpl in Hf2.
  { left. exists e, s2. split; [done|congruence]. }
  destruct (df s2) as [t2|] eqn:Hdf2.
  2:{ left. exists AttributeError, s2. split; [done|congruence]. }
  pose proof (create_daily_column_files days
                (add_stdout [DebugColumns (names t2)] s2)) as Hf3.
  destruct (create_daily_column days _) as [[e|[]] s3]; simpl in Hf3.
  { left. exists e, s3. split; [done|congruence]. }
  destruct (analyze_data s3) as [[e|res] s4] eqn:Han.
  { left. exists e, s4. pose proof (analyze_data_files s3) as Hf4.
    rewrite Han in Hf4. simpl in Hf4. split; [done|congruence]. }
  destruct (analyze_data_success _ _ _ Han) as (t & Hdf4 & Hres4 & Htot & Hf4).
  rewrite generate_report_run.
  destruct (plot_churn savefig s4) as [[e|img] s5].
  { left. exists e, s4. split; [done|congruence]. }
  rewrite Hres4. right. eexists _, t, res, img.
  split; [done|]. simpl. rewrite Htot, Hf4, Hf3, Hf2, Hf1. done.
Qed.

(** ** The stages together *)

Lemma clean_data_series_present s s' raw out j dt :
  raw_data s = Some raw →
  well_formed raw →
  clean_data float_str s = (inr tt, s') →
  df s' = Some out →
  dtype_at j out = Some dt → dt ≠ DBool →
  Forall (λ c, isnull c = false) (series j out).
Proof.
  intros Hraw Hwf Hrun Hout Hdt Hne.
  unfold series. rewrite Forall_fmap, Forall_forall. intros r' Hr'. simpl.
  destruct (clean_data_row _ _ _ _ _ Hraw Hrun Hout Hr') as (r & Hr & ->).
  unfold cell_at. rewrite list_lookup_imap.
  destruct (r !! j) as [c|] eqn:Hc; simpl.
  - rewrite Hdt. by apply filled_cell_not_null.
  - exfalso. apply lookup_ge_None in Hc.
    unfold well_formed in Hwf. rewrite Forall_forall in Hwf.
    rewrite (Hwf _ Hr) in Hc.
    rewrite <- (clean_data_columns_length _ _ _ _ Hraw Hrun Hout) in Hc.
    unfold dtype_at in Hdt. destruct (columns out !! j) eqn:E; [|done].
    apply lookup_lt_Some in E. lia.
Qed.

(** X22: on the table that [clean_data] makes of a well-formed raw table,
    with a "Churn" column of text or numbers, [churn_rate] is what the
    specification says: no label is missing, so the keys are the labels of
    the column, "Desconocido" included, one for each group of equal
    labels; each key gets the number of labels equal to it over the number
    of rows, and the values sum to 1 when the table has a row. *)
Theorem analyze_data_after_cleaning s s' raw out churn dt s2 s2' res :
  raw_data s = Some raw →
  well_formed raw →
  clean_data float_str s = (inr tt, s') →
  df s' = Some out →
  col_index "Churn" out = Some churn →
  dtype_at churn out = Some dt → dt ≠ DBool →
  df s2 = Some out →
  analyze_data s2 = (inr res, s2') →
  (∀ i i' k k', (churn_rate res).*1 !! i = Some k →
                (churn_rate res).*1 !! i' = Some k' → py_equal k k' → i = i')
  ∧ (∀ k, k ∈ (churn_rate res).*1 → k ∈ series churn out)
  ∧ (∀ v, v ∈ series churn out → ∃ k, k ∈ (churn_rate res).*1 ∧ py_equal k v)
  ∧ (∀ k q, (k, q) ∈ churn_rate res →
            q = proportion (count k (series churn out)) (len out))
  ∧ (rows out ≠ [] → (Qsum (churn_rate res).*2 == 1)%Q).
Proof.
  intros Hraw Hwf Hrun Hout Hchurn Hdt Hne Hdf2 Han.
  pose proof (clean_data_series_present _ _ _ _ _ _ Hraw Hwf Hrun Hout Hdt Hne)
    as Hpresent.
  assert (dropna (series churn out) = series churn out) as Hall.
  { unfold dropna. apply filter_all. by apply Forall_forall. }
  assert (length (series churn out) = len out) as Hlen.
  { unfold series, len. apply length_fmap. }
  destruct (analyze_data_inr _ _ _ _ _ Hdf2 Hchurn Han) as (Hrate & _).
  apply value_counts_normalized_spec in Hrate. rewrite Hall, Hlen in Hrate.
  destruct Hrate as (H1 & H2 & H3 & H4 & H5).
  split; [done|]. split; [done|]. split; [done|]. split; [done|].
  intros Hrows. apply H5. unfold series. by destruct (rows out).
Qed.

(** X23: once loaded, the raw table is never touched: none of
    [clean_data], [create_daily_column], [analyze_data] and
    [generate_report] changes [raw_data], whatever its outcome, and at the
    end of a run [raw_data] is what [load_data] stored. *)
Theorem raw_data_kept url file_path output_html days s :
  raw_data (clean_data float_str s).2 = raw_data s
  ∧ raw_data (create_daily_column days s).2 = raw_data s
  ∧ raw_data (analyze_data s).2 = raw_data s
  ∧ raw_data (generate_report savefig output_html s).2 = raw_data s
  ∧ raw_data (run_and_report float_str get_json read_json savefig
                url file_path output_html days s).2
    = raw_data (load_data get_json read_json url file_path s).2.
Proof.
  assert (∀ s, raw_data (clean_data float_str s).2 = raw_data s) as Hclean.
  { intros s0. rewrite clean_data_run. destruct (raw_data s0) eqn:E; [|done].
    simpl. destruct (drop_duplicates _); simpl; done. }
  assert (∀ s, raw_data (create_daily_column days s).2 = raw_data s) as Hdaily.
  { intros s0. rewrite create_daily_column_run. destruct (df s0) as [t|]; [|done].
    destruct (col_index _ t); [|done]. by destruct (truediv _ _ _). }
  assert (∀ s, raw_data (analyze_data s).2 = raw_data s) as Han.
  { intros s0. rewrite analyze_data_run. destruct (df s0) as [t|]; [|done].
    destruct (col_index _ t); [|done].
    destruct (value_counts_normalized _); [done|].
    destruct (find_charge_col _); [|done]. by destruct (groupby_mean _ _). }
  assert (∀ s, raw_data (generate_report savefig output_html s).2 = raw_data s)
    as Hgen.
  { intros s0. rewrite generate_report_run.
    destruct (plot_churn savefig s0) as [[e|img] s1]; [done|].
    by destruct (results s0). }
  split; [done|]. split; [done|]. split; [done|]. split; [done|].
  rewrite run_and_report_run. cbv zeta.
  set (s1 := (load_data get_json read_json url file_path s).2).
  specialize (Hclean s1).
  destruct (clean_data float_str s1) as [[e|[]] s2]; simpl in Hclean; [done|].
  destruct (df s2) as [t2|]; [|done].
  specialize (Hdaily (add_stdout [DebugColumns (names t2)] s2)).
  change (raw_data (add_stdout [DebugColumns (names t2)] s2))
    with (raw_data s2) in Hdaily.
  destruct (create_daily_column days _) as [[e|[]] s3]; simpl in Hdaily |- *;
    [congruence|].
  specialize (Han s3).
  destruct (analyze_data s3) as [[e|res] s4]; simpl in Han |- *; [congruence|].
  rewrite Hgen. congruence.
Qed.

End Properties.

(** ** The theorems at work on the sample tables *)

(** The scenario of the specification, from the URL to the report. *)
Example run_and_report_scenario :
  let s := (run_and_report show_float web disk draw
              (Some "https://example.org/customers.json") None
              "informe_churn.html" default_days (init [])).2 in
  (series 0 <$> df s) = Some [CStr "Yes"; CStr "No"]
  ∧ results s = Some customers_results
  ∧ files s = [("informe_churn.html",
                {| doc_total := 2;
                   doc_churn_rate := churn_rate customers_results;
                   doc_avg_charges := avg_charges customers_results;
                   doc_image := "iVBORw0KGgo=" |})].
Proof. vm_compute. split; [reflexivity|]. split; reflexivity. Qed.

Lemma analyze_data_churn_rate_witness :
  df (holding mixed_labels) = Some mixed_labels
  ∧ col_index "Churn" mixed_labels = Some 0
  ∧ (analyze_data (holding mixed_labels)).1 = inr mixed_labels_results
  ∧ (∀ v, v ∈ [CInt 1; CFloat 1; CStr "x"; CBool true] →
          ∃ k, k ∈ [CInt 1; CStr "x"] ∧ py_equal k v)
  ∧ (∀ k q, (k, q) ∈ churn_rate mixed_labels_results →
            q = proportion (count k [CInt 1; CFloat 1; CStr "x"; CBool true]) 4)
  ∧ (Qsum (churn_rate mixed_labels_results).*2 == 1)%Q.
Proof.
  split; [reflexivity|]. split; [reflexivity|]. split; [reflexivity|].
  destruct (analyze_data_churn_rate (holding mixed_labels)
              (analyze_data (holding mixed_labels)).2
              mixed_labels 0 mixed_labels_results eq_refl eq_refl eq_refl)
    as (_ & _ & H3 & H4 & H5 & _ & _).
  split; [exact H3|]. split; [exact H4|]. apply H5. discriminate.
Defined.

Lemma analyze_data_schema_error_witness :
  df (holding no_churn) = Some no_churn
  ∧ (analyze_data (holding no_churn)).1 = inl KeyError
  ∧ ∃ e s', run_and_report show_float web disk draw None (Some "no_churn.json")
              "informe_churn.html" default_days (init []) = (inl e, s')
            ∧ files s' = [].
Proof.
  pose proof (analyze_data_schema_error show_float web disk draw
                None (Some "no_churn.json") "informe_churn.html" default_days
                (init []) (holding no_churn) no_churn eq_refl) as (H1 & _ & H3).
  assert ("Churn" ∉ names no_churn) as Hn by by_decision.
  split; [reflexivity|]. split; [by apply H1|].
  apply H3. intros raw [= <-]. exact Hn.
Defined.

Lemma clean_data_fills_nulls_witness :
  (cells_cleaned (py_str show_float) "Desconocido"
     missing_gender missing_gender_cleaned
   ∧ py_str show_float CNull = "nan" ∧ py_str show_float CNone = "None")
  ∧ (cells_cleaned (py_str show_float) "Desconocido"
       nested_account nested_account_cleaned
     ∧ py_str show_float CNull = "nan" ∧ py_str show_float CNone = "None").
Proof.
  split.
  - apply (clean_data_fills_nulls show_float (loaded missing_gender)
             (clean_data show_float (loaded missing_gender)).2);
      reflexivity.
  - apply (clean_data_fills_nulls show_float (loaded nested_account)
             (clean_data show_float (loaded nested_account)).2);
      reflexivity.
Defined.

Lemma load_data_failure_witness :
  load_data web disk None None (init [])
  = (inr tt, {| raw_data := None; df := None; results := None;
                stdout := [ErrorLoading ValueError]; files := [] |})
  ∧ ∃ s', run_and_report show_float web disk draw None None
            "informe_churn.html" default_days (init [])
          = (inl AttributeError, s')
          ∧ files s' = [].
Proof.
  apply (load_data_failure show_float web disk draw None None
           "informe_churn.html" default_days (init []) ValueError).
  left. split; [reflexivity|]. split; reflexivity.
Defined.

Lemma create_daily_column_sets_daily_charges_witness :
  well_formed customers_cleaned
  ∧ ¬ (default_days == 0)%Q
  ∧ sets_daily_charges default_days customers_cleaned
      (create_daily_column default_days (holding customers_cleaned)).
Proof.
  assert (well_formed customers_cleaned) as Hwf
    by by_decision.
  assert (¬ (default_days == 0)%Q) as Hdays by discriminate.
  split; [exact Hwf|]. split; [exact Hdays|].
  apply (create_daily_column_sets_daily_charges default_days
           (holding customers_cleaned) customers_cleaned eq_refl Hwf Hdays).
  intros j [= <-].
  change (series 1 customers_cleaned) with [CFloat 70; CFloat 50].
  apply Forall_cons; split; [right; by eexists|].
  apply Forall_cons; split; [right; by eexists|]. apply Forall_nil_2.
Defined.


Lemma clean_data_twice_witness :
  df (clean_data show_float (loaded mixed_plans_cleaned)).2
  = Some mixed_plans_cleaned_twice
  ∧ ∃ s2' out2,
      clean_data show_float (loaded mixed_plans_cleaned) = (inr tt, s2')
      ∧ df s2' = Some out2
      ∧ drop_duplicates mixed_plans_cleaned = inr out2
      ∧ columns out2 = columns mixed_plans_cleaned
      ∧ rows out2 `sublist_of` rows mixed_plans_cleaned
      ∧ (columns mixed_plans_cleaned ≠ [] →
           first_occurrences_kept (same_row (length (columns mixed_plans_cleaned)))
             (rows mixed_plans_cleaned) (rows out2))
      ∧ (distinct_rows mixed_plans_cleaned → out2 = mixed_plans_cleaned).
Proof.
  split; [reflexivity|].
  apply (clean_data_twice show_float (loaded mixed_plans)
           (clean_data show_float (loaded mixed_plans)).2 mixed_plans);
    reflexivity.
Defined.


Lemma create_daily_column_frame_witness :
  (∃ t', df (create_daily_column default_days (holding with_daily)).2 = Some t'
     ∧ len t' = len with_daily
     ∧ (∀ j name dt, columns with_daily !! j = Some (name, dt) →
                     name ≠ "DailyCharges" → column_kept j with_daily t')
     ∧ ("MonthlyCharges" ∈ names with_daily →
        (create_daily_column default_days (holding with_daily)).1 = inr tt →
          col_index "DailyCharges" t' = Some (target "DailyCharges" with_daily)
          ∧ ("DailyCharges" ∈ names with_daily → names t' = names with_daily)
          ∧ ("DailyCharges" ∉ names with_daily →
               names t' = names with_daily ++ ["DailyCharges"]))
     ∧ ("MonthlyCharges" ∉ names with_daily
        ∨ (create_daily_column default_days (holding with_daily)).1 ≠ inr tt →
        t' = with_daily))
  ∧ (∃ t', df (create_daily_column default_days (holding no_charges)).2 = Some t'
       ∧ len t' = len no_charges
       ∧ (∀ j name dt, columns no_charges !! j = Some (name, dt) →
                       name ≠ "DailyCharges" → column_kept j no_charges t')
       ∧ ("MonthlyCharges" ∈ names no_charges →
          (create_daily_column default_days (holding no_charges)).1 = inr tt →
            col_index "DailyCharges" t' = Some (target "DailyCharges" no_charges)
            ∧ ("DailyCharges" ∈ names no_charges → names t' = names no_charges)
            ∧ ("DailyCharges" ∉ names no_charges →
                 names t' = names no_charges ++ ["DailyCharges"]))
       ∧ ("MonthlyCharges" ∉ names no_charges
          ∨ (create_daily_column default_days (holding no_charges)).1 ≠ inr tt →
          t' = no_charges)).
Proof.
  split.
  - apply (create_daily_column_frame default_days (holding with_daily) with_daily);
      [reflexivity|]. by_decision.
  - apply (create_daily_column_frame default_days (holding no_charges) no_charges);
      [reflexivity|]. by_decision.
Defined.

Lemma clean_data_keeps_first_occurrences_witness :
  df (clean_data show_float (loaded mixed_labels)).2 = Some mixed_labels_cleaned
  ∧ ∃ d, first_occurrences_kept (same_row (length (columns mixed_labels)))
           (rows (stringify_nested show_float mixed_labels).1) (rows d)
         ∧ columns d = columns (stringify_nested show_float mixed_labels).1
         ∧ df (clean_data show_float (loaded mixed_labels)).2
           = Some (fill_numeric (fill_text d)).
Proof.
  split; [reflexivity|].
  apply (clean_data_keeps_first_occurrences show_float (loaded mixed_labels)
           (clean_data show_float (loaded mixed_labels)).2 mixed_labels);
    [reflexivity| discriminate| reflexivity].
Defined.

(** ** Where the specification and the script part *)

(** C1, as stated, fails: with a missing label, "Yes" gets 1 and not 1/2,
    its count over the number of rows; and on a "Churn" column without
    rows the values sum to 0. *)
Lemma churn_rate_not_by_row_count :
  (∃ res s', analyze_data (holding missing_label) = (inr res, s')
             ∧ ¬ churn_rate_by_row_count missing_label res)
  ∧ (∃ res s', analyze_data (holding no_rows) = (inr res, s')
               ∧ ¬ churn_rate_by_row_count no_rows res).
Proof.
  split.
  - eexists _, _. split; [vm_compute; reflexivity|].
    intros H. destruct (H 0 eq_refl) as (Hin & _ & _).
    destruct (Hin (CStr "Yes")) as (k & _ & Hbad); [left|reflexivity|].
    apply list_elem_of_singleton in Hbad. discriminate Hbad.
  - eexists _, _. split; [vm_compute; reflexivity|].
    intros H. destruct (H 0 eq_refl) as (_ & _ & Hsum).
    discriminate Hsum.
Qed.

(** C3, as stated, fails: the sentinel written into a text column is
    "Desconocido", not "Unknown"; and in a column that held a dict a
    missing value becomes the text "nan" or "None", not the sentinel. *)
Lemma sentinel_is_not_Unknown :
  df (clean_data show_float (loaded missing_gender)).2 = Some missing_gender_cleaned
  ∧ ¬ nulls_replaced "Unknown" (λ _, true) missing_gender missing_gender_cleaned
  ∧ df (clean_data show_float (loaded nested_account)).2 = Some nested_account_cleaned
  ∧ ¬ nulls_replaced "Desconocido" (λ _, true) nested_account nested_account_cleaned.
Proof.
  split; [reflexivity|]. split; [|split; [reflexivity|]].
  - intros H. destruct (H [CStr "Desconocido"]) as (r & Hr & Hcells); [left|].
    apply list_elem_of_singleton in Hr as ->.
    destruct (Hcells 0 "gender" DObject CNull eq_refl eq_refl) as [_ Hnull].
    specialize (Hnull eq_refl eq_refl). discriminate Hnull.
  - intros H. destruct (H [CStr "nan"; CStr "Male"]) as (r & Hr & Hcells).
    { right. left. }
    apply elem_of_cons in Hr as [->|Hr].
    + destruct (Hcells 1 "gender" DObject (CStr "Female") eq_refl eq_refl)
        as [Hkeep _].
      specialize (Hkeep eq_refl eq_refl). discriminate Hkeep.
    + apply elem_of_cons in Hr as [->|Hr].
      * destruct (Hcells 0 "account" DObject CNull eq_refl eq_refl) as [_ Hnull].
        specialize (Hnull eq_refl eq_refl). discriminate Hnull.
      * apply list_elem_of_singleton in Hr as ->.
        destruct (Hcells 0 "account" DObject CNone eq_refl eq_refl) as [_ Hnull].
        specialize (Hnull eq_refl eq_refl). discriminate Hnull.
Qed.


(** C4, as stated, fails: without URL and path [load_data] raises
    nothing. *)
Lemma load_data_returns_normally :
  ¬ ∃ e s', load_data web disk None None (init []) = (inl e, s').
Proof. intros (e & s' & H). discriminate H. Qed.

(** C5, as stated, fails: on monthly charges held as text the call raises
    [TypeError] and no daily charge is set. *)
Lemma text_charges_not_divided :
  create_daily_column default_days (holding text_charges)
  = (inl TypeError, holding text_charges)
  ∧ ¬ sets_daily_charges default_days text_charges
        (create_daily_column default_days (holding text_charges)).
Proof.
  split; [reflexivity|]. intros H.
  destruct (H 1 eq_refl) as (t' & k & Hres & _). discriminate Hres.
Qed.

(** C7, as stated, fails: the cleaned table of [zero_and_missing] has two
    equal rows, and cleaning it again drops one. *)
Lemma clean_data_not_idempotent :
  ¬ idempotent_on (clean_data show_float) zero_and_missing.
Proof.
  intros H.
  assert ({| columns := columns zero_and_missing_cleaned;
             rows := [[CStr "Yes"; CFloat 0]] |} = zero_and_missing_cleaned) as E.
  { apply (H (loaded zero_and_missing)
             (clean_data show_float (loaded zero_and_missing)).2
             zero_and_missing_cleaned
             (loaded zero_and_missing_cleaned)
             (clean_data show_float (loaded zero_and_missing_cleaned)).2);
      reflexivity. }
  discriminate E.
Qed.


(** C9, as stated, fails: an existing "DailyCharges" column is
    overwritten. *)
Lemma daily_charges_overwritten :
  df (create_daily_column default_days (holding with_daily)).2
  = Some with_daily_after
  ∧ ¬ all_columns_kept with_daily with_daily_after.
Proof.
  split; [reflexivity|]. intros (_ & H).
  destruct (H 1) as (_ & Hs); [simpl; lia|]. discriminate Hs.
Qed.

(** C10, as stated, fails: of two records without any column both are
    kept, although they are equal. *)
Lemma empty_records_both_kept :
  df (clean_data show_float (loaded two_empty_records)).2 = Some two_empty_records
  ∧ ¬ ∃ d, first_occurrences_kept
             (same_row (length (columns two_empty_records)))
             (rows (stringify_nested show_float two_empty_records).1) (rows d)
           ∧ columns d = columns (stringify_nested show_float two_empty_records).1
           ∧ df (clean_data show_float (loaded two_empty_records)).2
             = Some (fill_numeric (fill_text d)).
Proof.
  split; [reflexivity|]. intros (d & Hkept & _ & Hdf).
  apply first_occurrences_kept_unique in Hkept.
  rewrite fill_frame in Hdf. injection Hdf as _ Hrows.
  apply (f_equal length) in Hrows.
  rewrite length_fmap, Hkept in Hrows. discriminate Hrows.
Qed.

(** ** The further properties at work on the sample tables *)

Lemma load_data_url_first_witness :
  load_data web disk (Some "https://example.org/customers.json")
    (Some "no_churn.json") (init [])
  = load_data web web (Some "https://example.org/customers.json") None (init []).
Proof.
  apply (load_data_url_first web disk
           (Some "https://example.org/customers.json")
           "https://example.org/customers.json" (Some "no_churn.json")
           (init []) eq_refl).
Defined.

Lemma clean_data_raises_witness :
  df (clean_data show_float (loaded tagged)).2 = None.
Proof.
  exact (proj1 (clean_data_raises show_float (loaded tagged) TypeError
                  (clean_data show_float (loaded tagged)).2 eq_refl)).
Defined.

Lemma clean_data_unhashable_witness :
  ∃ s', clean_data show_float (loaded tagged) = (inl TypeError, s')
        ∧ df s' = None.
Proof.
  apply (clean_data_unhashable show_float (loaded tagged) tagged
           [CStr "0002-ORFBO"; CList "['fiber', 'tv']"] 1
           (CList "['fiber', 'tv']"));
    [reflexivity| discriminate| left| reflexivity| reflexivity| reflexivity].
Defined.

Lemma clean_data_row_counts_witness :
  ∃ out, df (clean_data show_float (loaded customers)).2 = Some out
    ∧ len out ≤ len customers
    ∧ (len customers ≠ 0 → len out ≠ 0)
    ∧ stdout (clean_data show_float (loaded customers)).2
      = [] ++ (stringify_nested show_float customers).2
        ++ [OkDuplicates (len customers - len out) (len out); OkClean].
Proof.
  apply (clean_data_row_counts show_float (loaded customers)
           (clean_data show_float (loaded customers)).2 customers);
    reflexivity.
Defined.

Lemma clean_data_well_formed_witness :
  well_formed customers ∧ well_formed customers_cleaned.
Proof.
  assert (well_formed customers) as Hwf by by_decision.
  split; [exact Hwf|].
  apply (clean_data_well_formed show_float (loaded customers)
           (clean_data show_float (loaded customers)).2 customers
           customers_cleaned eq_refl eq_refl eq_refl Hwf).
Defined.

Lemma clean_data_nested_text_witness :
  ∃ r : row, r ∈ rows nested_account
    ∧ length [CStr "None"; CStr "Male"] = length r
    ∧ ∀ j c, nested nested_account j = true → r !! j = Some c →
             [CStr "None"; CStr "Male"] !! j = Some (CStr (py_str show_float c)).
Proof.
  apply (clean_data_nested_text show_float (loaded nested_account)
           (clean_data show_float (loaded nested_account)).2
           nested_account nested_account_cleaned);
    [reflexivity| reflexivity| reflexivity| right; right; left].
Defined.

Lemma clean_data_without_missing_witness :
  NoDup (rows customers_cleaned)
  ∧ ∃ s2', clean_data show_float (loaded customers_cleaned) = (inr tt, s2')
           ∧ df s2' = Some customers_cleaned.
Proof.
  apply (clean_data_without_missing show_float (loaded customers)
           (clean_data show_float (loaded customers)).2 customers);
    [reflexivity| reflexivity| reflexivity| discriminate| by_decision| reflexivity].
Defined.

Lemma create_daily_column_raises_witness :
  holding number_then_text = holding number_then_text
  ∧ ((ZeroDivisionError = AttributeError ∧ df (holding number_then_text) = None)
     ∨ ∃ t j, df (holding number_then_text) = Some t
         ∧ col_index "MonthlyCharges" t = Some j
         ∧ ((ZeroDivisionError = TypeError
             ∧ ∃ c, c ∈ series j t ∧ isnull c = false ∧ is_number c = false)
            ∨ (ZeroDivisionError = ZeroDivisionError ∧ (0 == 0)%Q
               ∧ dtype_at j t = Some DObject
               ∧ ∃ c, c ∈ series j t ∧ (is_number c = true ∨ c = CNull)))).
Proof.
  apply (create_daily_column_raises 0 (holding number_then_text)
           ZeroDivisionError (holding number_then_text) eq_refl).
Defined.

Lemma create_daily_column_text_witness :
  (∃ e, create_daily_column default_days (holding number_then_text)
        = (inl e, holding number_then_text)
        ∧ (e = TypeError ∨ (e = ZeroDivisionError ∧ (default_days == 0)%Q))
        ∧ (¬ (default_days == 0)%Q → e = TypeError))
  ∧ (∃ e, create_daily_column 0 (holding number_then_text)
          = (inl e, holding number_then_text)
          ∧ (e = TypeError ∨ (e = ZeroDivisionError ∧ (0 == 0)%Q))
          ∧ (¬ (0 == 0)%Q → e = TypeError)).
Proof.
  split.
  - apply (create_daily_column_text default_days (holding number_then_text)
             number_then_text 1 (CStr "x"));
      [reflexivity| reflexivity| right; left| reflexivity| reflexivity].
  - apply (create_daily_column_text 0 (holding number_then_text)
             number_then_text 1 (CStr "x"));
      [reflexivity| reflexivity| right; left| reflexivity| reflexivity].
Defined.

Lemma create_daily_column_names_after_witness :
  ∃ t', df (create_daily_column default_days (holding customers_cleaned)).2 = Some t'
    ∧ ("DailyCharges" ∈ names customers_cleaned → names t' = names customers_cleaned)
    ∧ ("DailyCharges" ∉ names customers_cleaned →
         names t' = names customers_cleaned ++ ["DailyCharges"])
    ∧ stdout (create_daily_column default_days (holding customers_cleaned)).2
      = [] ++ [OkDailyCreated].
Proof.
  apply (create_daily_column_names_after default_days (holding customers_cleaned)
           (create_daily_column default_days (holding customers_cleaned)).2
           customers_cleaned 1);
    reflexivity.
Defined.

Lemma create_daily_column_same_charge_col_witness :
  ∃ t', df (create_daily_column default_days (holding customers_cleaned)).2 = Some t'
        ∧ find_charge_col (names t') = find_charge_col (names customers_cleaned).
Proof.
  apply (create_daily_column_same_charge_col default_days
           (holding customers_cleaned) customers_cleaned eq_refl).
Defined.

Lemma create_daily_column_well_formed_witness :
  ∃ t', df (create_daily_column default_days (holding customers_cleaned)).2 = Some t'
        ∧ well_formed t'.
Proof.
  apply (create_daily_column_well_formed default_days
           (holding customers_cleaned) customers_cleaned eq_refl).
  by_decision.
Defined.

Lemma create_daily_column_again_witness :
  ∃ s2, create_daily_column default_days
          (create_daily_column default_days (holding customers_cleaned)).2
        = (inr tt, s2)
        ∧ df s2 = df (create_daily_column default_days (holding customers_cleaned)).2.
Proof.
  apply (create_daily_column_again default_days (holding customers_cleaned)
           (create_daily_column default_days (holding customers_cleaned)).2
           customers_cleaned eq_refl);
    [by_decision| reflexivity].
Defined.

Lemma plot_churn_matches_churn_rate_witness :
  ∃ counts,
    plot_churn draw (analyze_data (holding customers_cleaned)).2
    = match draw counts with
      | inl e => (inl e, (analyze_data (holding customers_cleaned)).2)
      | inr img => (inr img, (analyze_data (holding customers_cleaned)).2)
      end
    ∧ churn_rate customers_results
      = (λ p : cell * nat, (p.1, proportion p.2 (sum_list counts.*2))) <$> counts
    ∧ Forall (λ p : cell * nat, 1 ≤ p.2) counts
    ∧ sum_list counts.*2 = length (dropna (series 0 customers_cleaned))
    ∧ sum_list counts.*2 ≤ total_customers customers_results.
Proof.
  apply (plot_churn_matches_churn_rate draw (holding customers_cleaned)
           (analyze_data (holding customers_cleaned)).2 customers_cleaned 0
           customers_results);
    reflexivity.
Defined.

Lemma analyze_data_churn_rate_bounds_witness :
  (0 < 1 # 2 ∧ 1 # 2 <= 1)%Q.
Proof.
  apply (analyze_data_churn_rate_bounds (holding customers_cleaned)
           (analyze_data (holding customers_cleaned)).2 customers_cleaned 0
           customers_results (CStr "Yes") (1 # 2));
    [reflexivity| reflexivity| reflexivity| left].
Defined.

Lemma analyze_data_same_keys_witness :
  (avg_charges customers_results).*1 ≡ₚ (churn_rate customers_results).*1
  ∧ (avg_charges customers_results).*1
    = sort_by cell_leb
        (keep_first_by py_key [] (dropna (series 0 customers_cleaned))).
Proof.
  apply (analyze_data_same_keys (holding customers_cleaned)
           (analyze_data (holding customers_cleaned)).2 customers_cleaned 0
           "MonthlyCharges" customers_results);
    reflexivity.
Defined.

Lemma analyze_data_text_charges_witness :
  analyze_data (holding text_charges) = (inl TypeError, holding text_charges).
Proof.
  apply (analyze_data_text_charges (holding text_charges) text_charges 0
           "MonthlyCharges" 1 0 [CStr "Yes"; CStr "70.0"]);
    reflexivity.
Defined.

Lemma analyze_data_after_cleaning_witness :
  (∀ i i' k k', (churn_rate customers_results).*1 !! i = Some k →
                (churn_rate customers_results).*1 !! i' = Some k' →
                py_equal k k' → i = i')
  ∧ (∀ k, k ∈ (churn_rate customers_results).*1 → k ∈ series 0 customers_cleaned)
  ∧ (∀ v, v ∈ series 0 customers_cleaned →
          ∃ k, k ∈ (churn_rate customers_results).*1 ∧ py_equal k v)
  ∧ (∀ k q, (k, q) ∈ churn_rate customers_results →
            q = proportion (count k (series 0 customers_cleaned))
                  (len customers_cleaned))
  ∧ (rows customers_cleaned ≠ [] →
       (Qsum (churn_rate customers_results).*2 == 1)%Q).
Proof.
  apply (analyze_data_after_cleaning show_float (loaded customers)
           (clean_data show_float (loaded customers)).2 customers
           customers_cleaned 0 DObject (holding customers_cleaned)
           (analyze_data (holding customers_cleaned)).2 customers_results);
    [reflexivity| by_decision| reflexivity| reflexivity| reflexivity
    | reflexivity| discriminate| reflexivity| reflexivity].
Defined.


Lemma create_daily_column_zero_division_witness :
  create_daily_column 0 (holding number_then_text)
  = (inl ZeroDivisionError, holding number_then_text).
Proof.
  apply (create_daily_column_zero_division 0 (holding number_then_text)
           number_then_text 1 [CStr "Yes"; CInt 70]);
    reflexivity.
Defined.
